(** * Outreach sync service: schema transformer, token bucket, sync engine

    A shallow embedding of the Python sources

      - [src/models.py]              (module [Models])
      - [src/schema_transformer.py]  (module [SchemaTransformer])
      - [src/rate_limiter.py]        (modules [TokenBucket] and
                                      [RateLimiterManager])
      - [src/api_client.py]          (module [ExternalAPIClient])
      - [src/sync_engine.py]         (module [SyncEngine])

    over a model of the Python values and exceptions they handle (module
    [Py]) and of the Redis structures they store their state in (module
    [Redis]), followed by the properties established about them. *)

From Stdlib Require Import ZArith QArith Qround Qminmax Lqa Ascii String.
From stdpp Require Import gmap strings pretty list fin_maps.

Local Open Scope Z_scope.
Local Open Scope string_scope.

(* ===================================================================== *)
(** * Python values, exceptions and the part of the runtime the code uses *)
(* ===================================================================== *)

Module Py.

(** A [datetime] is a naive UTC instant, counted in microseconds (the
    resolution of Python's [datetime]). *)
Definition datetime : Type := Z.

(** [timedelta(seconds=n)]. *)
Definition timedelta_seconds (n : Z) : Z := n * 1000000.

(** The scalars a record field can hold ([Dict[str, Any]] restricted to the
    tagged scalars: null, bool, int, float, str) and [datetime], which
    [_format_date] tests for.  A finite float is held as the rational it
    denotes. *)
Inductive value : Type :=
| VNone
| VBool (b : bool)
| VInt (z : Z)
| VFloat (q : Q)
| VStr (s : string)
| VDatetime (t : datetime).

#[export] Instance Q_eq_dec : EqDecision Q.
Proof. solve_decision. Defined.

#[export] Instance value_eq_dec : EqDecision value.
Proof. solve_decision. Defined.

(** [x is None] *)
Definition is_none (x : value) : bool :=
  match x with VNone => true | _ => false end.

(** Truth value testing: [if x], [bool(x)], [not x]. *)
Definition truthy (x : value) : bool :=
  match x with
  | VNone => false
  | VBool b => b
  | VInt z => negb (Z.eqb z 0)
  | VFloat q => negb (Qeq_bool q 0)
  | VStr s => negb (String.eqb s "")
  | VDatetime _ => true
  end.

(** Exception classes raised or caught by the code.  [RateLimitError],
    [AuthenticationError] and [ValidationError] derive from [APIError];
    everything derives from [Exception]. *)
Inductive exn_class : Type :=
| APIError
| RateLimitError
| AuthenticationError
| ValidationError
| TransformationError
| ValueError
| KeyError
| TypeError
| OtherException.

#[export] Instance exn_class_eq_dec : EqDecision exn_class.
Proof. solve_decision. Defined.

(** An exception instance: its class and [str(e)]. *)
Record exn : Type := Exn { exn_cls : exn_class; exn_msg : string }.

#[export] Instance exn_eq_dec : EqDecision exn.
Proof. solve_decision. Defined.

(** [isinstance(e, APIError)] *)
Definition is_APIError (e : exn) : bool :=
  match exn_cls e with
  | APIError | RateLimitError | AuthenticationError | ValidationError => true
  | _ => false
  end.

(** [isinstance(e, RateLimitError)] *)
Definition is_RateLimitError (e : exn) : bool :=
  match exn_cls e with RateLimitError => true | _ => false end.

(** Computations that return or raise. *)
Definition result (A : Type) : Type := exn + A.

Definition ret {A} (a : A) : result A := inr a.
Definition raise {A} (c : exn_class) (m : string) : result A := inl (Exn c m).

Definition raises {A} (r : result A) : bool :=
  match r with inl _ => true | inr _ => false end.

Definition raises_cls {A} (c : exn_class) (r : result A) : Prop :=
  exists m, r = inl (Exn c m).

(** The built-in and library functions the sources call.  They are the
    interface of the Python runtime, not code of this repository. *)
Class Runtime : Type := {
  py_str : value -> string;                  (* str(x) *)
  py_int : value -> result value;            (* int(x) *)
  py_float : value -> result value;          (* float(x) *)
  str_upper : string -> string;              (* s.upper() *)
  str_lower : string -> string;              (* s.lower() *)
  str_strip : string -> string;              (* s.strip() *)
  str_isdigit : ascii -> bool;               (* c.isdigit() *)
  re_sub_tags : string -> string;            (* re.sub(r'<[^>]+>', '', s) *)
  re_sub_special : string -> string;         (* re.sub(r'[^a-zA-Z0-9\s]', '', s) *)
  dateutil_parse : string -> result datetime;(* dateutil.parser.parse(s) *)
  isoformat : datetime -> string;            (* d.isoformat() *)
}.

(** What the properties below need of the runtime: [str] of a string is the
    string, and neither [int('')] nor [float('')] parses. *)
Class RuntimeLaws (rt : Runtime) : Prop := {
  py_str_str : forall s, py_str (VStr s) = s;
  py_int_empty : raises_cls ValueError (py_int (VStr ""));
  py_float_empty : raises_cls ValueError (py_float (VStr ""));
}.

(** [d.get(k)] on a [Dict[str, Any]]: the value, or [None]. *)
Definition dict_get (d : gmap string value) (k : string) : value :=
  default VNone (d !! k).

End Py.

Import Py.

(* ===================================================================== *)
(** * models.py *)
(* ===================================================================== *)

Module Models.

Inductive OperationType : Type := CREATE | READ | UPDATE | DELETE.

#[export] Instance OperationType_eq_dec : EqDecision OperationType.
Proof. solve_decision. Defined.

Inductive SyncStatus : Type :=
| PENDING | PROCESSING | COMPLETED | FAILED | RETRYING.

#[export] Instance SyncStatus_eq_dec : EqDecision SyncStatus.
Proof. solve_decision. Defined.

Inductive ProviderType : Type := SALESFORCE | HUBSPOT | PIPEDRIVE | CUSTOM.

(** [ProviderType.value] *)
Definition provider_type_value (p : ProviderType) : string :=
  match p with
  | SALESFORCE => "salesforce"
  | HUBSPOT => "hubspot"
  | PIPEDRIVE => "pipedrive"
  | CUSTOM => "custom"
  end.

Record AuthConfig : Type := {
  auth_type : string;
  credentials : gmap string value;
  token_url : option string;
  refresh_token : option string;
}.

Record ProviderConfig : Type := {
  name : string;
  provider_type : ProviderType;
  base_url : string;
  rate_limit_per_minute : Z;
  burst_limit : Z;
  timeout_seconds : Z;
  max_retries : Z;
  auth_config : AuthConfig;
}.

Record SchemaMapping : Type := {
  internal_field : string;
  external_field : string;
  transformer : option string;
  required : bool;
}.

(** [SchemaMapping(internal_field=i, external_field=e, ...)]: [transformer]
    defaults to [None] and [required] to [True]. *)
Definition SchemaMapping_new (i e : string) (t : option string)
    (r : option bool) : SchemaMapping :=
  {| internal_field := i; external_field := e; transformer := t;
     required := default true r |}.

Record RecordData : Type := {
  rd_id : option string;
  data : gmap string value;
  schema_version : string;
}.

#[export] Instance RecordData_eq_dec : EqDecision RecordData.
Proof. solve_decision. Defined.

(** [RecordData(data=d)] *)
Definition RecordData_new (d : gmap string value) : RecordData :=
  {| rd_id := None; data := d; schema_version := "1.0" |}.

Record SyncOperation : Type := {
  id : string;                       (* UUID, in its string form *)
  operation : OperationType;
  provider : string;
  record_id : option string;
  record_data : option RecordData;
  priority : Z;
  created_at : datetime;
  scheduled_at : option datetime;
}.

Record SyncResult : Type := {
  operation_id : string;
  status : SyncStatus;
  sr_provider : string;
  external_id : value;
  started_at : option datetime;
  completed_at : option datetime;
  error_message : option string;
  retry_count : nat;
  response_data : option (gmap string value);
}.

Record QueueMetrics : Type := {
  pending_operations : nat;
  processing_operations : nat;
  failed_operations : nat;
  completed_operations_last_hour : Z;
  average_processing_time_seconds : Q;
  error_rate_percentage : Q;
}.

End Models.

Import Models.

(* ===================================================================== *)
(** * schema_transformer.py *)
(* ===================================================================== *)

Module SchemaTransformer.

(** A registered transformer: a Python callable of one argument. *)
Definition callable : Type := value -> result value.

(** [class SchemaTransformer]: the object state is the registry
    [self.transformers]. *)
Record t : Type := { transformers : gmap string callable }.

(** [''.join(filter(p, s))] *)
Fixpoint str_filter (p : ascii -> bool) (s : string) : string :=
  match s with
  | EmptyString => EmptyString
  | String c s' => if p c then String c (str_filter p s') else str_filter p s'
  end.

(** [c in s] for a one-character [c] *)
Fixpoint str_contains (c : ascii) (s : string) : bool :=
  match s with
  | EmptyString => false
  | String a s' => Ascii.eqb a c || str_contains c s'
  end.

(** [s.split(c)[-1]]: what follows the last [c], or all of [s]. *)
Fixpoint split_last (c : ascii) (s : string) : string :=
  match s with
  | EmptyString => EmptyString
  | String a s' =>
      if str_contains c s' then split_last c s'
      else if Ascii.eqb a c then s' else s
  end.

Section WithRuntime.
Context {rt : Runtime}.

Definition to_upper : callable := fun x =>
  if truthy x then ret (VStr (str_upper (py_str x))) else ret VNone.

Definition to_lower : callable := fun x =>
  if truthy x then ret (VStr (str_lower (py_str x))) else ret VNone.

Definition to_string : callable := fun x =>
  if negb (is_none x) then ret (VStr (py_str x)) else ret VNone.

Definition to_int : callable := fun x =>
  if negb (is_none x) then py_int x else ret VNone.

Definition to_float : callable := fun x =>
  if negb (is_none x) then py_float x else ret VNone.

Definition to_bool : callable := fun x =>
  if negb (is_none x) then ret (VBool (truthy x)) else ret VNone.

Definition truncate_255 : callable := fun x =>
  if truthy x then ret (VStr (substring 0 255 (py_str x))) else ret VNone.

Definition _format_phone : callable := fun phone =>
  if negb (truthy phone) then ret VNone
  else
    let phone_str := str_strip (py_str phone) in
    let digits := str_filter str_isdigit phone_str in
    if Nat.eqb (String.length digits) 10 then ret (VStr ("+1" +:+ digits))
    else if Nat.eqb (String.length digits) 11 && String.prefix "1" digits
         then ret (VStr ("+" +:+ digits))
    else ret (VStr phone_str).

Definition _format_email : callable := fun email =>
  if negb (truthy email) then ret VNone
  else
    let email_str := str_lower (str_strip (py_str email)) in
    if str_contains "@" email_str
       && str_contains "." (split_last "@" email_str)
    then ret (VStr email_str)
    else ret VNone.

Definition _format_date : callable := fun date_value =>
  if negb (truthy date_value) then ret VNone
  else
    match date_value with
    | VDatetime d => ret (VStr (isoformat d))
    | VStr s =>
        match dateutil_parse s with
        | inr parsed_date => ret (VStr (isoformat parsed_date))
        | inl _ => ret date_value
        end
    | _ => ret (VStr (py_str date_value))
    end.

Definition _clean_html : callable := fun html =>
  if negb (truthy html) then ret VNone
  else ret (VStr (str_strip (re_sub_tags (py_str html)))).

Definition _remove_special_chars : callable := fun text =>
  if negb (truthy text) then ret VNone
  else ret (VStr (str_strip (re_sub_special (py_str text)))).

(** The names and callables of the dict literal in [__init__]. *)
Definition builtins : list (string * callable) :=
  [ ("to_upper", to_upper);
    ("to_lower", to_lower);
    ("to_string", to_string);
    ("to_int", to_int);
    ("to_float", to_float);
    ("to_bool", to_bool);
    ("format_phone", _format_phone);
    ("format_email", _format_email);
    ("format_date", _format_date);
    ("clean_html", _clean_html);
    ("truncate_255", truncate_255);
    ("remove_special_chars", _remove_special_chars) ].

(** [SchemaTransformer.__init__] *)
Definition __init__ : t := {| transformers := list_to_map builtins |}.

End WithRuntime.

(** [add_transformer] *)
Definition add_transformer (self : t) (name : string) (func : callable) : t :=
  {| transformers := <[name := func]> (transformers self) |}.

(** [transform_value]: an unknown name raises; whatever the callable raises
    is re-raised as [TransformationError]. *)
Definition transform_value (self : t) (v : value) (transformer_name : string)
    : result value :=
  match transformers self !! transformer_name with
  | None =>
      raise TransformationError ("Unknown transformer: " +:+ transformer_name)
  | Some f =>
      match f v with
      | inr v' => ret v'
      | inl e =>
          raise TransformationError
            ("Transformation '" +:+ transformer_name +:+ "' failed: "
             +:+ exn_msg e)
      end
  end.

(** [if mapping.transformer]: the name is given and not the empty string. *)
Definition transformer_given (mapping : SchemaMapping) : option string :=
  match transformer mapping with
  | Some n => if String.eqb n "" then None else Some n
  | None => None
  end.

(** The choice of source and target field by [direction]. *)
Definition source_field (direction : string) (mapping : SchemaMapping) : string :=
  if String.eqb direction "internal_to_external"
  then internal_field mapping else external_field mapping.

Definition target_field (direction : string) (mapping : SchemaMapping) : string :=
  if String.eqb direction "internal_to_external"
  then external_field mapping else internal_field mapping.

(** The [for mapping in mappings] loop of [transform_record], with
    [output_data] as accumulator. *)
Fixpoint transform_loop (self : t) (input_data : gmap string value)
    (direction : string) (mappings : list SchemaMapping)
    (output_data : gmap string value) : result (gmap string value) :=
  match mappings with
  | [] => ret output_data
  | mapping :: rest =>
      let source_value := dict_get input_data (source_field direction mapping) in
      if required mapping && is_none source_value then
        raise TransformationError
          ("Required field '" +:+ source_field direction mapping
           +:+ "' is missing")
      else
        let emit (transformed_value : value) :=
          transform_loop self input_data direction rest
            (if negb (is_none transformed_value)
             then <[target_field direction mapping := transformed_value]> output_data
             else output_data) in
        match transformer_given mapping with
        | Some n =>
            if negb (is_none source_value) then
              match transform_value self source_value n with
              | inr transformed_value => emit transformed_value
              | inl e =>
                  if required mapping then inl e
                  else transform_loop self input_data direction rest output_data
              end
            else emit source_value
        | None => emit source_value
        end
  end.

(** [transform_record] *)
Definition transform_record (self : t) (record_data : RecordData)
    (mappings : list SchemaMapping) (direction : string)
    : result (gmap string value) :=
  transform_loop self (data record_data) direction mappings ∅.

(** [get_default_mappings] *)
Definition get_default_mappings (provider : string) : list SchemaMapping :=
  if String.eqb provider "salesforce" then
    [ SchemaMapping_new "first_name" "FirstName" None None;
      SchemaMapping_new "last_name" "LastName" None (Some true);
      SchemaMapping_new "email" "Email" (Some "format_email") None;
      SchemaMapping_new "phone" "Phone" (Some "format_phone") None;
      SchemaMapping_new "company_id" "AccountId" None None;
      SchemaMapping_new "title" "Title" None None ]
  else if String.eqb provider "hubspot" then
    [ SchemaMapping_new "first_name" "firstname" None None;
      SchemaMapping_new "last_name" "lastname" None (Some true);
      SchemaMapping_new "email" "email" (Some "format_email") None;
      SchemaMapping_new "phone" "phone" (Some "format_phone") None;
      SchemaMapping_new "company_name" "company" None None;
      SchemaMapping_new "title" "jobtitle" None None ]
  else if String.eqb provider "pipedrive" then
    [ SchemaMapping_new "full_name" "name" None (Some true);
      SchemaMapping_new "email" "email" (Some "format_email") None;
      SchemaMapping_new "phone" "phone" (Some "format_phone") None;
      SchemaMapping_new "organization_id" "org_id" (Some "to_int") None ]
  else [].

End SchemaTransformer.

(* ===================================================================== *)
(** * The Redis structures the service uses *)
(* ===================================================================== *)

Module Redis.

(** A sorted set: members with their scores, kept in ascending score order.
    Members of equal score are kept in insertion order (Redis orders them by
    member bytes; nothing below depends on the order among equal scores). *)
Definition zset (M : Type) : Type := list (M * Z).

Section ZSet.
Context {M : Type} `{EqDecision M}.

(** [ZREM key member] *)
Definition zrem (z : zset M) (m : M) : zset M :=
  filter (fun p => p.1 <> m) z.

Fixpoint zinsert (m : M) (s : Z) (z : zset M) : zset M :=
  match z with
  | [] => [(m, s)]
  | (m', s') :: z' =>
      if Z.ltb s s' then (m, s) :: z else (m', s') :: zinsert m s z'
  end.

(** [ZADD key {member: score}]: a member already present is re-scored. *)
Definition zadd (z : zset M) (m : M) (s : Z) : zset M :=
  zinsert m s (zrem z m).

(** [BZPOPMIN key]: the member of least score, its score, and the rest;
    [None] when the set stays empty until the timeout. *)
Definition bzpopmin (z : zset M) : option (M * Z * zset M) :=
  match z with
  | [] => None
  | (m, s) :: z' => Some (m, s, z')
  end.

(** [ZRANGE key 0 -1] *)
Definition zrange (z : zset M) : list M := z.*1.

(** [ZCARD key] *)
Definition zcard (z : zset M) : nat := length z.

(** [LPUSH key x] *)
Definition lpush (l : list M) (x : M) : list M := x :: l.

(** [LRANGE key 0 -1] *)
Definition lrange (l : list M) : list M := l.

End ZSet.

(** [INCRBY key n] on the integer keys; an absent key counts as 0.  (The
    [EXPIRE] that follows every increment only bounds how long the key
    lives and is not modelled.) *)
Definition incrby {K} `{Countable K} (c : gmap K Z) (k : K) (n : Z) : gmap K Z :=
  <[k := default 0 (c !! k) + n]> c.

(** [GET key], read as [int(... or 0)]. *)
Definition get_int {K} `{Countable K} (c : gmap K Z) (k : K) : Z :=
  default 0 (c !! k).

(** The hash of one token bucket: fields [tokens] and [last_refill].  Lua
    numbers are held as exact rationals. *)
Record bucket_hash : Type := { tokens : Q; last_refill : Q }.

(** [HMGET key 'tokens' 'last_refill']: both fields, nil for a missing key. *)
Definition hmget (h : gmap string bucket_hash) (key : string)
    : option Q * option Q :=
  match h !! key with
  | Some b => (Some (tokens b), Some (last_refill b))
  | None => (None, None)
  end.

(** [HMSET key 'tokens' t 'last_refill' l] *)
Definition hmset (h : gmap string bucket_hash) (key : string) (t l : Q)
    : gmap string bucket_hash :=
  <[key := {| tokens := t; last_refill := l |}]> h.

End Redis.

(* ===================================================================== *)
(** * rate_limiter.py *)
(* ===================================================================== *)

Module TokenBucket.
Import Redis.

(** [class TokenBucket] *)
Record t : Type := {
  capacity : Z;
  refill_rate : Q;          (* tokens per second *)
  key_prefix : string;
}.

Definition bucket_key (self : t) (provider : string) : string :=
  key_prefix self +:+ ":" +:+ provider.

(** The refill step of the Lua script: the token count after the elapsed
    time is credited, before any consumption. *)
Definition refilled (self : t) (bucket_data : option Q * option Q)
    (current_time : Q) : Q :=
  let current_tokens := default (inject_Z (capacity self)) bucket_data.1 in
  let last_refill := default current_time bucket_data.2 in
  let time_elapsed := (current_time - last_refill)%Q in
  let tokens_to_add := Qfloor (time_elapsed * refill_rate self)%Q in
  Qmin (inject_Z (capacity self)) (current_tokens + inject_Z tokens_to_add)%Q.

(** [consume]: the Lua script, run atomically against the hash at
    [bucket_key], at the time [current_time = time.time()]. *)
Definition consume (self : t) (h : gmap string bucket_hash)
    (provider : string) (tokens : Z) (current_time : Q)
    : bool * gmap string bucket_hash :=
  let key := bucket_key self provider in
  let current_tokens := refilled self (hmget h key) current_time in
  if Qle_bool (inject_Z tokens) current_tokens then
    (true, hmset h key (current_tokens - inject_Z tokens)%Q current_time)
  else
    (false, hmset h key current_tokens current_time).

(** [get_status]: the token count with the refill applied (not floored) and
    nothing consumed, and the utilization. *)
Definition get_status (self : t) (h : gmap string bucket_hash)
    (provider : string) (current_time : Q) : Q * Q :=
  let bucket_data := hmget h (bucket_key self provider) in
  let current_tokens := default (inject_Z (capacity self)) bucket_data.1 in
  let last_refill := default current_time bucket_data.2 in
  let time_elapsed := (current_time - last_refill)%Q in
  let tokens_to_add := (time_elapsed * refill_rate self)%Q in
  let current_tokens :=
    Qmin (inject_Z (capacity self)) (current_tokens + tokens_to_add)%Q in
  (current_tokens, (1 - current_tokens / inject_Z (capacity self))%Q).

End TokenBucket.

Module RateLimiterManager.
Import Redis.

(** [class RateLimiterManager]: [self.limiters]. *)
Record t : Type := { limiters : gmap string TokenBucket.t }.

Definition __init__ : t := {| limiters := ∅ |}.

(** [add_provider] *)
Definition add_provider (self : t) (provider : string)
    (rate_limit_per_minute burst_limit : Z) : t :=
  let refill_rate := (inject_Z rate_limit_per_minute / 60)%Q in
  {| limiters :=
       <[provider :=
           {| TokenBucket.capacity := burst_limit;
              TokenBucket.refill_rate := refill_rate;
              TokenBucket.key_prefix := "rate_limit:" +:+ provider |}]>
         (limiters self) |}.

(** [remove_provider] *)
Definition remove_provider (self : t) (provider : string) : t :=
  {| limiters := delete provider (limiters self) |}.

(** [can_make_request]: no limiter configured lets the request through. *)
Definition can_make_request (self : t) (h : gmap string bucket_hash)
    (provider : string) (tokens : Z) (current_time : Q)
    : bool * gmap string bucket_hash :=
  match limiters self !! provider with
  | None => (true, h)
  | Some limiter => TokenBucket.consume limiter h provider tokens current_time
  end.

(** [get_provider_status] *)
Definition get_provider_status (self : t) (h : gmap string bucket_hash)
    (provider : string) (current_time : Q) : option (Q * Q) :=
  match limiters self !! provider with
  | None => None
  | Some limiter => Some (TokenBucket.get_status limiter h provider current_time)
  end.

(** The sleep between two polls of [wait_for_capacity]:
    [min(tokens / limiter.refill_rate, 1.0)], or 0.1 without limiter.  The
    division raises [ZeroDivisionError] for a refill rate of zero. *)
Definition wait_time (self : t) (provider : string) (tokens : Z) : result Q :=
  match limiters self !! provider with
  | Some limiter =>
      if Qeq_bool (TokenBucket.refill_rate limiter) 0
      then raise OtherException "float division by zero"
      else ret (Qmin (inject_Z tokens / TokenBucket.refill_rate limiter) 1)%Q
  | None => ret (1 # 10)%Q
  end.

(** [wait_for_capacity], started at [start_time], over the turns of its
    loop that are observed: each turn comes with the two readings of
    [time.time()] it takes, for the loop test and inside [consume].  The
    result is [None] while the loop is still running after the last
    observed turn. *)
Fixpoint wait_for_capacity (self : t) (h : gmap string bucket_hash)
    (provider : string) (tokens : Z) (timeout start_time : Q)
    (turns : list (Q * Q)) : option (result bool * gmap string bucket_hash) :=
  match turns with
  | [] => None
  | (t_test, t_poll) :: turns' =>
      if negb (Qle_bool timeout (t_test - start_time)) then
        let '(ok, h') := can_make_request self h provider tokens t_poll in
        if ok then Some (ret true, h')
        else
          match wait_time self provider tokens with
          | inl e => Some (inl e, h')
          | inr _ =>
              wait_for_capacity self h' provider tokens timeout start_time turns'
          end
      else Some (ret false, h)
  end.

End RateLimiterManager.

(* ===================================================================== *)
(** * api_client.py *)
(* ===================================================================== *)

Module ExternalAPIClient.
Import Redis.

(** A decoded JSON object: request bodies and provider responses. *)
Definition json : Type := gmap string value.

(** What lies outside the process during one dispatch: the wall clock the
    rate limiter reads, and the provider's answers. *)
Record World : Type := {
  (** [time.time()] *)
  time_time : Q;
  (** The token request of [_oauth2_authenticate]: [None] when a token comes
      back, otherwise the exception that leaves the method. *)
  token_request : ProviderConfig -> option exn;
  (** The HTTP exchange of [_make_request] for a method, an endpoint and a
      JSON body, from the headers to the decoded body: it returns the
      response object or raises ([RateLimitError] on 429, [APIError] on any
      [httpx.HTTPError]). *)
  http : string -> string -> option json -> result json;
}.

(** [class ExternalAPIClient] *)
Record t : Type := {
  config : ProviderConfig;
  rate_limiter : RateLimiterManager.t;
  schema_transformer : SchemaTransformer.t;
}.

(** [_oauth2_authenticate] *)
Definition _oauth2_authenticate (self : t) (w : World) : option exn :=
  match token_url (auth_config (config self)) with
  | None => Some (Exn AuthenticationError "OAuth2 token URL not configured")
  | Some u =>
      if String.eqb u ""
      then Some (Exn AuthenticationError "OAuth2 token URL not configured")
      else token_request w (config self)
  end.

(** [_authenticate]: [None] when it returns, otherwise what it raises. *)
Definition _authenticate (self : t) (w : World) : option exn :=
  let ty := auth_type (auth_config (config self)) in
  if String.eqb ty "oauth2" then _oauth2_authenticate self w
  else if String.eqb ty "api_key" then None
  else if String.eqb ty "basic" then None
  else Some (Exn AuthenticationError ("Unsupported auth type: " +:+ ty)).

(** [__aenter__] *)
Definition __aenter__ (self : t) (w : World) : option exn :=
  _authenticate self w.

(** [_make_request].  The rate limit is checked first; the exchange itself
    is the world's.  (The [tenacity] decorator retries only on transport
    exceptions, which the method has already turned into [APIError].) *)
Definition _make_request (self : t) (w : World) (h : gmap string bucket_hash)
    (method endpoint : string) (data : option json)
    : result json * gmap string bucket_hash :=
  let '(ok, h') :=
    RateLimiterManager.can_make_request (rate_limiter self) h
      (name (config self)) 1 (time_time w) in
  if negb ok then
    (raise RateLimitError
       ("Rate limit exceeded for provider " +:+ name (config self)), h')
  else (http w method endpoint data, h').

(** The provider-specific collection endpoint. *)
Definition collection_endpoint (p : ProviderType) : string :=
  match p with
  | SALESFORCE => "/services/data/v52.0/sobjects/Contact"
  | HUBSPOT => "/crm/v3/objects/contacts"
  | PIPEDRIVE => "/v1/persons"
  | CUSTOM => "/contacts"
  end.

(** The provider-specific endpoint of one record. *)
Definition record_endpoint (p : ProviderType) (record_id : string) : string :=
  collection_endpoint p +:+ "/" +:+ record_id.

Definition update_method (p : ProviderType) : string :=
  match p with
  | SALESFORCE | HUBSPOT => "PATCH"
  | PIPEDRIVE | CUSTOM => "PUT"
  end.

(** [create_record] *)
Definition create_record (self : t) (w : World) (h : gmap string bucket_hash)
    (record_data : RecordData) : result json * gmap string bucket_hash :=
  let mappings :=
    SchemaTransformer.get_default_mappings
      (provider_type_value (provider_type (config self))) in
  match SchemaTransformer.transform_record (schema_transformer self)
          record_data mappings "internal_to_external" with
  | inl e => (inl e, h)
  | inr transformed_data =>
      _make_request self w h "POST"
        (collection_endpoint (provider_type (config self)))
        (Some transformed_data)
  end.

(** [read_record] *)
Definition read_record (self : t) (w : World) (h : gmap string bucket_hash)
    (record_id : string) : result json * gmap string bucket_hash :=
  _make_request self w h "GET"
    (record_endpoint (provider_type (config self)) record_id) None.

(** [update_record] *)
Definition update_record (self : t) (w : World) (h : gmap string bucket_hash)
    (record_id : string) (record_data : RecordData)
    : result json * gmap string bucket_hash :=
  let mappings :=
    SchemaTransformer.get_default_mappings
      (provider_type_value (provider_type (config self))) in
  match SchemaTransformer.transform_record (schema_transformer self)
          record_data mappings "internal_to_external" with
  | inl e => (inl e, h)
  | inr transformed_data =>
      _make_request self w h (update_method (provider_type (config self)))
        (record_endpoint (provider_type (config self)) record_id)
        (Some transformed_data)
  end.

(** [delete_record] *)
Definition delete_record (self : t) (w : World) (h : gmap string bucket_hash)
    (record_id : string) : result json * gmap string bucket_hash :=
  _make_request self w h "DELETE"
    (record_endpoint (provider_type (config self)) record_id) None.

(** The keyword arguments [_process_operation] builds: each key is present
    or not. *)
Record kwargs : Type := {
  kw_record_id : option string;
  kw_record_data : option RecordData;
}.

(** [kwargs[key]]: a missing key raises [KeyError(key)]. *)
Definition kwargs_item {A} (key : string) (o : option A) : result A :=
  match o with
  | Some a => ret a
  | None => raise KeyError ("'" +:+ key +:+ "'")
  end.

(** [execute_operation] *)
Definition execute_operation (self : t) (w : World)
    (h : gmap string bucket_hash) (operation_type : OperationType)
    (kw : kwargs) : result json * gmap string bucket_hash :=
  match operation_type with
  | CREATE =>
      match kwargs_item "record_data" (kw_record_data kw) with
      | inl e => (inl e, h)
      | inr rd => create_record self w h rd
      end
  | READ =>
      match kwargs_item "record_id" (kw_record_id kw) with
      | inl e => (inl e, h)
      | inr rid => read_record self w h rid
      end
  | UPDATE =>
      match kwargs_item "record_id" (kw_record_id kw) with
      | inl e => (inl e, h)
      | inr rid =>
          match kwargs_item "record_data" (kw_record_data kw) with
          | inl e => (inl e, h)
          | inr rd => update_record self w h rid rd
          end
      end
  | DELETE =>
      match kwargs_item "record_id" (kw_record_id kw) with
      | inl e => (inl e, h)
      | inr rid => delete_record self w h rid
      end
  end.

End ExternalAPIClient.

(* ===================================================================== *)
(** * sync_engine.py *)
(* ===================================================================== *)

Module SyncEngine.
Import Redis.
Import ExternalAPIClient.

(** The JSON object under which an operation is stored.  The first eight
    keys are written by [submit_operation]; the others are the keys
    [_process_operation] and the worker set.  A key that is absent and a key
    holding null read the same through [dict.get], and are both [None]
    (resp. [VNone]) here.  A tier member is the [json.dumps] text of such an
    object; it is held as the object it decodes to. *)
Record OpDict : Type := {
  d_id : string;
  d_operation : OperationType;
  d_provider : string;
  d_record_id : option string;
  d_record_data : option RecordData;
  d_priority : Z;
  d_created_at : datetime;
  d_scheduled_at : option datetime;
  d_started_at : option datetime;
  d_completed_at : option datetime;
  d_response_data : option json;
  d_external_id : value;
  d_error_message : option string;
  d_retry_count : option nat;
}.

#[export] Instance OpDict_eq_dec : EqDecision OpDict.
Proof. solve_decision. Defined.

(** [operation_dict[key] = v] for the keys the worker writes. *)
Definition set_scheduled_at (d : OpDict) (v : datetime) : OpDict :=
  {| d_id := d_id d; d_operation := d_operation d; d_provider := d_provider d;
     d_record_id := d_record_id d; d_record_data := d_record_data d;
     d_priority := d_priority d; d_created_at := d_created_at d;
     d_scheduled_at := Some v; d_started_at := d_started_at d;
     d_completed_at := d_completed_at d; d_response_data := d_response_data d;
     d_external_id := d_external_id d; d_error_message := d_error_message d;
     d_retry_count := d_retry_count d |}.

Definition set_started_at (d : OpDict) (v : datetime) : OpDict :=
  {| d_id := d_id d; d_operation := d_operation d; d_provider := d_provider d;
     d_record_id := d_record_id d; d_record_data := d_record_data d;
     d_priority := d_priority d; d_created_at := d_created_at d;
     d_scheduled_at := d_scheduled_at d; d_started_at := Some v;
     d_completed_at := d_completed_at d; d_response_data := d_response_data d;
     d_external_id := d_external_id d; d_error_message := d_error_message d;
     d_retry_count := d_retry_count d |}.

Definition set_completed_at (d : OpDict) (v : datetime) : OpDict :=
  {| d_id := d_id d; d_operation := d_operation d; d_provider := d_provider d;
     d_record_id := d_record_id d; d_record_data := d_record_data d;
     d_priority := d_priority d; d_created_at := d_created_at d;
     d_scheduled_at := d_scheduled_at d; d_started_at := d_started_at d;
     d_completed_at := Some v; d_response_data := d_response_data d;
     d_external_id := d_external_id d; d_error_message := d_error_message d;
     d_retry_count := d_retry_count d |}.

Definition set_response_data (d : OpDict) (v : json) : OpDict :=
  {| d_id := d_id d; d_operation := d_operation d; d_provider := d_provider d;
     d_record_id := d_record_id d; d_record_data := d_record_data d;
     d_priority := d_priority d; d_created_at := d_created_at d;
     d_scheduled_at := d_scheduled_at d; d_started_at := d_started_at d;
     d_completed_at := d_completed_at d; d_response_data := Some v;
     d_external_id := d_external_id d; d_error_message := d_error_message d;
     d_retry_count := d_retry_count d |}.

Definition set_external_id (d : OpDict) (v : value) : OpDict :=
  {| d_id := d_id d; d_operation := d_operation d; d_provider := d_provider d;
     d_record_id := d_record_id d; d_record_data := d_record_data d;
     d_priority := d_priority d; d_created_at := d_created_at d;
     d_scheduled_at := d_scheduled_at d; d_started_at := d_started_at d;
     d_completed_at := d_completed_at d; d_response_data := d_response_data d;
     d_external_id := v; d_error_message := d_error_message d;
     d_retry_count := d_retry_count d |}.

Definition set_error_message (d : OpDict) (v : string) : OpDict :=
  {| d_id := d_id d; d_operation := d_operation d; d_provider := d_provider d;
     d_record_id := d_record_id d; d_record_data := d_record_data d;
     d_priority := d_priority d; d_created_at := d_created_at d;
     d_scheduled_at := d_scheduled_at d; d_started_at := d_started_at d;
     d_completed_at := d_completed_at d; d_response_data := d_response_data d;
     d_external_id := d_external_id d; d_error_message := Some v;
     d_retry_count := d_retry_count d |}.

Definition set_retry_count (d : OpDict) (v : nat) : OpDict :=
  {| d_id := d_id d; d_operation := d_operation d; d_provider := d_provider d;
     d_record_id := d_record_id d; d_record_data := d_record_data d;
     d_priority := d_priority d; d_created_at := d_created_at d;
     d_scheduled_at := d_scheduled_at d; d_started_at := d_started_at d;
     d_completed_at := d_completed_at d; d_response_data := d_response_data d;
     d_external_id := d_external_id d; d_error_message := d_error_message d;
     d_retry_count := Some v |}.

(** The queue names. *)
Definition PENDING_QUEUE : string := "sync:pending".
Definition PROCESSING_QUEUE : string := "sync:processing".
Definition COMPLETED_QUEUE : string := "sync:completed".
Definition FAILED_QUEUE : string := "sync:failed".
Definition DLQ : string := "sync:dlq".

(** The keys of the Redis instance: the two sorted sets, the three lists,
    the hourly counters [sync:metrics:<hour>:<name>] (keyed by the index of
    the hour and the name), and the token-bucket hashes. *)
Record Store : Type := {
  pending : zset OpDict;
  processing : zset OpDict;
  completed : list OpDict;
  failed : list OpDict;
  dlq : list OpDict;
  metrics : gmap (Z * string) Z;
  buckets : gmap string bucket_hash;
}.

Definition with_pending (s : Store) (v : zset OpDict) : Store :=
  {| pending := v; processing := processing s; completed := completed s;
     failed := failed s; dlq := dlq s; metrics := metrics s;
     buckets := buckets s |}.

Definition with_processing (s : Store) (v : zset OpDict) : Store :=
  {| pending := pending s; processing := v; completed := completed s;
     failed := failed s; dlq := dlq s; metrics := metrics s;
     buckets := buckets s |}.

Definition with_completed (s : Store) (v : list OpDict) : Store :=
  {| pending := pending s; processing := processing s; completed := v;
     failed := failed s; dlq := dlq s; metrics := metrics s;
     buckets := buckets s |}.

Definition with_dlq (s : Store) (v : list OpDict) : Store :=
  {| pending := pending s; processing := processing s;
     completed := completed s; failed := failed s; dlq := v;
     metrics := metrics s; buckets := buckets s |}.

Definition with_metrics (s : Store) (v : gmap (Z * string) Z) : Store :=
  {| pending := pending s; processing := processing s;
     completed := completed s; failed := failed s; dlq := dlq s;
     metrics := v; buckets := buckets s |}.

Definition with_buckets (s : Store) (v : gmap string bucket_hash) : Store :=
  {| pending := pending s; processing := processing s;
     completed := completed s; failed := failed s; dlq := dlq s;
     metrics := metrics s; buckets := v |}.

Definition empty_store : Store :=
  {| pending := []; processing := []; completed := []; failed := [];
     dlq := []; metrics := ∅; buckets := ∅ |}.

(** [class SyncEngine] *)
Record t : Type := {
  redis : Store;
  rate_limiter : RateLimiterManager.t;
  schema_transformer : SchemaTransformer.t;
  providers : gmap string ProviderConfig;
}.

Definition with_redis (self : t) (s : Store) : t :=
  {| redis := s; rate_limiter := rate_limiter self;
     schema_transformer := schema_transformer self;
     providers := providers self |}.

(** [SyncEngine.__init__] *)
Definition __init__ {rt : Runtime} (redis_client : Store) : t :=
  {| redis := redis_client;
     rate_limiter := RateLimiterManager.__init__;
     schema_transformer := SchemaTransformer.__init__;
     providers := ∅ |}.

(** [add_provider] *)
Definition add_provider (self : t) (config : ProviderConfig) : t :=
  {| redis := redis self;
     rate_limiter :=
       RateLimiterManager.add_provider (rate_limiter self) (name config)
         (rate_limit_per_minute config) (burst_limit config);
     schema_transformer := schema_transformer self;
     providers := <[name config := config]> (providers self) |}.

(** [remove_provider] *)
Definition remove_provider (self : t) (provider_name : string) : t :=
  match providers self !! provider_name with
  | Some _ =>
      {| redis := redis self;
         rate_limiter :=
           RateLimiterManager.remove_provider (rate_limiter self) provider_name;
         schema_transformer := schema_transformer self;
         providers := delete provider_name (providers self) |}
  | None => self
  end.

(** [datetime.utcnow().strftime("%Y-%m-%d-%H")], as the index of the hour. *)
Definition current_hour (now : datetime) : Z := now / 3600000000.

(** [_update_metrics] *)
Definition _update_metrics (s : Store) (now : datetime) (metric_name : string)
    (v : Z) : Store :=
  with_metrics s (incrby (metrics s) (current_hour now, metric_name) v).

(** The [operation_data] dict that [submit_operation] serializes. *)
Definition operation_data_of (operation : SyncOperation) : OpDict :=
  {| d_id := id operation;
     d_operation := Models.operation operation;
     d_provider := provider operation;
     d_record_id := record_id operation;
     d_record_data := record_data operation;
     d_priority := priority operation;
     d_created_at := created_at operation;
     d_scheduled_at := scheduled_at operation;
     d_started_at := None; d_completed_at := None; d_response_data := None;
     d_external_id := VNone; d_error_message := None;
     d_retry_count := None |}.

(** [submit_operation], at the time [now] its metrics update reads. *)
Definition submit_operation (self : t) (operation : SyncOperation)
    (now : datetime) : result string * t :=
  match providers self !! provider operation with
  | None =>
      (raise ValueError ("Unknown provider: " +:+ provider operation), self)
  | Some _ =>
      let operation_data := operation_data_of operation in
      let s1 :=
        with_pending (redis self)
          (zadd (pending (redis self)) operation_data (priority operation)) in
      let s2 := _update_metrics s1 now "operations_submitted" 1 in
      (ret (id operation), with_redis self s2)
  end.

(** [status_mapping] of [_deserialize_sync_result] *)
Definition status_mapping : gmap string SyncStatus :=
  list_to_map
    [ (PENDING_QUEUE, PENDING);
      (PROCESSING_QUEUE, PROCESSING);
      (COMPLETED_QUEUE, COMPLETED);
      (FAILED_QUEUE, FAILED);
      (DLQ, FAILED) ].

(** [_deserialize_sync_result] *)
Definition _deserialize_sync_result (data : OpDict) (queue_name : string)
    : SyncResult :=
  {| operation_id := d_id data;
     status := default PENDING (status_mapping !! queue_name);
     sr_provider := d_provider data;
     external_id := d_external_id data;
     started_at := d_started_at data;
     completed_at := d_completed_at data;
     error_message := d_error_message data;
     retry_count := default 0%nat (d_retry_count data);
     response_data := d_response_data data |}.

(** The queues in the order [get_operation_status] reads them, each with
    its items ([ZRANGE] for the sorted sets, [LRANGE] for the lists). *)
Definition queues (s : Store) : list (string * list OpDict) :=
  [ (PENDING_QUEUE, zrange (pending s));
    (PROCESSING_QUEUE, zrange (processing s));
    (COMPLETED_QUEUE, lrange (completed s));
    (FAILED_QUEUE, lrange (failed s));
    (DLQ, lrange (dlq s)) ].

(** The two nested loops of [get_operation_status]: the first item, in the
    first queue, whose ["id"] is the one looked for. *)
Fixpoint scan_queues (operation_id : string)
    (qs : list (string * list OpDict)) : option SyncResult :=
  match qs with
  | [] => None
  | (queue_name, items) :: rest =>
      match List.find (fun data => String.eqb (d_id data) operation_id) items with
      | Some data => Some (_deserialize_sync_result data queue_name)
      | None => scan_queues operation_id rest
      end
  end.

(** [get_operation_status] *)
Definition get_operation_status (self : t) (operation_id : string)
    : option SyncResult :=
  scan_queues operation_id (queues (redis self)).

(** The readings of [datetime.utcnow()] during one worker iteration, by the
    statement that takes them. *)
Record Clock : Type := {
  now_gate : datetime;        (* [datetime.utcnow() < scheduled_time] *)
  now_started : datetime;     (* [operation_dict["started_at"]] *)
  now_completed : datetime;   (* [operation_dict["completed_at"]] *)
  now_retry : datetime;       (* [datetime.utcnow() + timedelta(...)] *)
  now_metrics : datetime;     (* [_update_metrics] *)
}.

(** The [kwargs] of [_process_operation]: a key is passed when its value
    is truthy. *)
Definition kwargs_of (operation_dict : OpDict) : kwargs :=
  {| kw_record_id :=
       match d_record_id operation_dict with
       | Some r => if String.eqb r "" then None else Some r
       | None => None
       end;
     kw_record_data := d_record_data operation_dict |}.

(** [operation_dict.get("scheduled_at")] is set and still in the future. *)
Definition scheduled_in_future (c : Clock) (operation_dict : OpDict) : bool :=
  match d_scheduled_at operation_dict with
  | Some scheduled_time => Z.ltb (now_gate c) scheduled_time
  | None => false
  end.

(** The body of the [try] of [_process_operation] after the schedule check:
    the dispatch.  It returns the response or the exception raised, the
    operation dict as mutated up to that point, and the token-bucket hashes
    (the only keys a dispatch writes). *)
Definition dispatch (self : t) (w : World) (c : Clock) (operation_dict : OpDict)
    : result json * OpDict * gmap string bucket_hash :=
  match providers self !! d_provider operation_dict with
  | None =>
      (raise ValueError
         ("Provider not configured: " +:+ d_provider operation_dict),
       operation_dict, buckets (redis self))
  | Some provider_config =>
      let operation_dict := set_started_at operation_dict (now_started c) in
      let client :=
        {| config := provider_config;
           ExternalAPIClient.rate_limiter := rate_limiter self;
           ExternalAPIClient.schema_transformer := schema_transformer self |} in
      match __aenter__ client w with
      | Some e => (inl e, operation_dict, buckets (redis self))
      | None =>
          let '(r, h) :=
            execute_operation client w (buckets (redis self))
              (d_operation operation_dict) (kwargs_of operation_dict) in
          match r with
          | inl e => (inl e, operation_dict, h)
          | inr response =>
              let operation_dict :=
                set_response_data
                  (set_completed_at operation_dict (now_completed c))
                  response in
              let operation_dict :=
                if bool_decide (d_operation operation_dict = CREATE)
                   && negb (bool_decide (response = ∅))
                then set_external_id operation_dict (dict_get response "id")
                else operation_dict in
              (inr response, operation_dict, h)
          end
      end
  end.

(** The [error_message] the three [except] clauses record. *)
Definition error_message_of (e : exn) : string :=
  if is_RateLimitError e then exn_msg e
  else if is_APIError e then exn_msg e
  else "Unexpected error: " +:+ exn_msg e.

(** [_process_operation]: the success flag, the operation dict as the
    caller sees it afterwards (the dict is mutated in place), and the
    engine. *)
Definition _process_operation (self : t) (w : World) (c : Clock)
    (operation_dict : OpDict) : bool * OpDict * t :=
  if scheduled_in_future c operation_dict then
    (true, operation_dict,
     with_redis self
       (with_pending (redis self)
          (zadd (pending (redis self)) operation_dict
             (d_priority operation_dict))))
  else
    match dispatch self w c operation_dict with
    | (inr _, operation_dict, h) =>
        (true, operation_dict, with_redis self (with_buckets (redis self) h))
    | (inl e, operation_dict, h) =>
        (false, set_error_message operation_dict (error_message_of e),
         with_redis self (with_buckets (redis self) h))
    end.

(** [min(300, 2 ** retry_count)] *)
Definition retry_delay (retry_count : nat) : Z :=
  Z.min 300 (2 ^ Z.of_nat retry_count).

Definition max_retries : nat := 3.

(** One iteration of the [while self.running] loop of [_worker_loop]. *)
Definition _worker_loop_body (self : t) (w : World) (c : Clock) : t :=
  match bzpopmin (pending (redis self)) with
  | None => self
  | Some (operation_data, priority, rest) =>
      let operation_dict := operation_data in
      let s := with_pending (redis self) rest in
      let s := with_processing s (zadd (processing s) operation_data priority) in
      let '(success, operation_dict, self) :=
        _process_operation (with_redis self s) w c operation_dict in
      let s := redis self in
      let s := with_processing s (zrem (processing s) operation_data) in
      if success then
        let s := with_completed s (lpush (completed s) operation_data) in
        with_redis self (_update_metrics s (now_metrics c) "operations_completed" 1)
      else
        let retry_count := default 0%nat (d_retry_count operation_dict) in
        if Nat.ltb retry_count max_retries then
          let operation_dict := set_retry_count operation_dict (retry_count + 1) in
          let delay := retry_delay retry_count in
          let scheduled_at := now_retry c + timedelta_seconds delay in
          let operation_dict := set_scheduled_at operation_dict scheduled_at in
          with_redis self
            (with_pending s (zadd (pending s) operation_dict priority))
        else
          let s := with_dlq s (lpush (dlq s) operation_data) in
          with_redis self (_update_metrics s (now_metrics c) "operations_failed" 1)
  end.

(** [_worker_loop], for a run of finitely many iterations: one world and
    one clock per iteration. *)
Fixpoint _worker_loop (self : t) (run : list (World * Clock)) : t :=
  match run with
  | [] => self
  | (w, c) :: run' => _worker_loop (_worker_loop_body self w c) run'
  end.

(** [get_queue_metrics], at the time [now] it reads the hour from. *)
Definition get_queue_metrics (self : t) (now : datetime) : QueueMetrics :=
  let completed_last_hour :=
    get_int (metrics (redis self)) (current_hour now, "operations_completed") in
  let failed_last_hour :=
    get_int (metrics (redis self)) (current_hour now, "operations_failed") in
  let total_operations := completed_last_hour + failed_last_hour in
  {| pending_operations := zcard (pending (redis self));
     processing_operations := zcard (processing (redis self));
     failed_operations := length (dlq (redis self));
     completed_operations_last_hour := completed_last_hour;
     average_processing_time_seconds := (5 # 2)%Q;
     error_rate_percentage :=
       if Z.ltb 0 total_operations
       then (inject_Z failed_last_hour / inject_Z total_operations * 100)%Q
       else 0%Q |}.

End SyncEngine.

(* ===================================================================== *)
(** * An instance of the runtime interface *)
(* ===================================================================== *)

(** A small instance over ASCII text, with which the definitions above can
    be run.  Integers print and parse in decimal; floats print as a
    fraction and parse from integer literals only; no date is parsed. *)
Module AsciiRuntime.

Definition is_space (c : ascii) : bool :=
  let n := nat_of_ascii c in
  Nat.eqb n 32 || (Nat.leb 9 n && Nat.leb n 13).

Definition is_digit (c : ascii) : bool :=
  let n := nat_of_ascii c in Nat.leb 48 n && Nat.leb n 57.

Definition is_upper (c : ascii) : bool :=
  let n := nat_of_ascii c in Nat.leb 65 n && Nat.leb n 90.

Definition is_lower (c : ascii) : bool :=
  let n := nat_of_ascii c in Nat.leb 97 n && Nat.leb n 122.

Fixpoint str_map (f : ascii -> ascii) (s : string) : string :=
  match s with
  | EmptyString => EmptyString
  | String c s' => String (f c) (str_map f s')
  end.

Definition upper (s : string) : string :=
  str_map (fun c => if is_lower c then ascii_of_nat (nat_of_ascii c - 32) else c) s.

Definition lower (s : string) : string :=
  str_map (fun c => if is_upper c then ascii_of_nat (nat_of_ascii c + 32) else c) s.

Fixpoint lstrip (s : string) : string :=
  match s with
  | EmptyString => EmptyString
  | String c s' => if is_space c then lstrip s' else s
  end.

Fixpoint rstrip (s : string) : string :=
  match s with
  | EmptyString => EmptyString
  | String c s' =>
      match rstrip s' with
      | EmptyString => if is_space c then EmptyString else String c EmptyString
      | r => String c r
      end
  end.

Definition strip (s : string) : string := rstrip (lstrip s).

(** The text after the first [>], when at least one character precedes it. *)
Fixpoint after_tag (seen : bool) (s : string) : option string :=
  match s with
  | EmptyString => None
  | String c s' =>
      if Ascii.eqb c ">" then (if seen then Some s' else None)
      else after_tag true s'
  end.

Fixpoint sub_tags (fuel : nat) (s : string) : string :=
  match fuel, s with
  | O, _ => s
  | _, EmptyString => EmptyString
  | S fuel', String c s' =>
      if Ascii.eqb c "<" then
        match after_tag false s' with
        | Some r => sub_tags fuel' r
        | None => String c (sub_tags fuel' s')
        end
      else String c (sub_tags fuel' s')
  end.

Definition sub_special (s : string) : string :=
  SchemaTransformer.str_filter
    (fun c => is_upper c || is_lower c || is_digit c || is_space c) s.

Fixpoint digits_value (acc : Z) (s : string) : option Z :=
  match s with
  | EmptyString => Some acc
  | String c s' =>
      if is_digit c
      then digits_value (10 * acc + Z.of_nat (nat_of_ascii c - 48)) s'
      else None
  end.

Definition unsigned_literal (s : string) : option Z :=
  match s with
  | EmptyString => None
  | _ => digits_value 0 s
  end.

Definition int_literal (s : string) : option Z :=
  match strip s with
  | String "-" s' => Z.opp <$> unsigned_literal s'
  | String "+" s' => unsigned_literal s'
  | s' => unsigned_literal s'
  end.

Definition show_Z (z : Z) : string :=
  if Z.ltb z 0 then "-" +:+ pretty (Z.to_N (- z)) else pretty (Z.to_N z).

Definition str (x : value) : string :=
  match x with
  | VNone => "None"
  | VBool true => "True"
  | VBool false => "False"
  | VInt z => show_Z z
  | VFloat q => show_Z (Qnum q) +:+ "/" +:+ pretty (Npos (Qden q))
  | VStr s => s
  | VDatetime d => show_Z d
  end.

Definition int (x : value) : result value :=
  match x with
  | VBool b => ret (VInt (Z.b2z b))
  | VInt z => ret (VInt z)
  | VFloat q => ret (VInt (Z.quot (Qnum q) (Zpos (Qden q))))
  | VStr s =>
      match int_literal s with
      | Some z => ret (VInt z)
      | None =>
          raise ValueError
            ("invalid literal for int() with base 10: '" +:+ s +:+ "'")
      end
  | _ => raise TypeError "int() argument must be a string or a number"
  end.

Definition float (x : value) : result value :=
  match x with
  | VBool b => ret (VFloat (inject_Z (Z.b2z b)))
  | VInt z => ret (VFloat (inject_Z z))
  | VFloat q => ret (VFloat q)
  | VStr s =>
      match int_literal s with
      | Some z => ret (VFloat (inject_Z z))
      | None =>
          raise ValueError ("could not convert string to float: '" +:+ s +:+ "'")
      end
  | _ => raise TypeError "float() argument must be a string or a number"
  end.

#[export] Instance runtime : Runtime := {|
  py_str := str;
  py_int := int;
  py_float := float;
  str_upper := upper;
  str_lower := lower;
  str_strip := strip;
  str_isdigit := is_digit;
  re_sub_tags := fun s => sub_tags (String.length s) s;
  re_sub_special := sub_special;
  dateutil_parse := fun s => raise ValueError ("Unknown string format: " +:+ s);
  isoformat := show_Z;
|}.

End AsciiRuntime.

(* ===================================================================== *)
(** * Definitions used to state the properties *)
(* ===================================================================== *)

Module Statements.
Import Redis.
Import SchemaTransformer.

(** The names the registry is created with. *)
Definition builtin_names : list string :=
  [ "to_upper"; "to_lower"; "to_string"; "to_int"; "to_float"; "to_bool";
    "format_phone"; "format_email"; "format_date"; "clean_html";
    "truncate_255"; "remove_special_chars" ].

(** The names of the built-ins that test [x is not None] instead of the
    truth value of [x]. *)
Definition none_tested : list string :=
  ["to_string"; "to_int"; "to_float"; "to_bool"].

(** What one mapping without transformer does to the output. *)
Definition emit_step (input : gmap string value) (direction : string)
    (acc : gmap string value) (m : SchemaMapping) : gmap string value :=
  let v := dict_get input (source_field direction m) in
  if negb (is_none v) then <[target_field direction m := v]> acc else acc.

(** Writing back, under each key, the value the record has there. *)
Definition restore_step (r : gmap string value) (acc : gmap string value)
    (m : SchemaMapping) : gmap string value :=
  let v := dict_get r (internal_field m) in
  if negb (is_none v) then <[internal_field m := v]> acc else acc.


(** The stored state of a provider is within the bucket's bounds and not
    ahead of the clock; an absent state stands for a full bucket. *)
Definition bucket_ok (self : TokenBucket.t) (bucket_data : option Q * option Q)
    (current_time : Q) : Prop :=
  (0 <= inject_Z (TokenBucket.capacity self))%Q
  /\ (forall t, bucket_data.1 = Some t ->
        (0 <= t)%Q /\ (t <= inject_Z (TokenBucket.capacity self))%Q)
  /\ (forall l, bucket_data.2 = Some l -> (l <= current_time)%Q).

(** The string does not start with white space (in the ASCII runtime). *)
Definition no_lead (s : string) : Prop :=
  match s with
  | EmptyString => True
  | String c _ => AsciiRuntime.is_space c = false
  end.






(** No entry of the pending tier has been retried more than [max_retries]
    times. *)
Definition retries_bounded (s : SyncEngine.Store) : Prop :=
  forall data,
    data ∈ zrange (SyncEngine.pending s) ->
    (default 0%nat (SyncEngine.d_retry_count data) <= SyncEngine.max_retries)%nat.

(** The entries of the five tiers that carry an operation id. *)
Definition entries_with_id (s : SyncEngine.Store) (operation_id : string)
    : list SyncEngine.OpDict :=
  List.filter (fun data => String.eqb (SyncEngine.d_id data) operation_id)
    (zrange (SyncEngine.pending s) ++ zrange (SyncEngine.processing s)
     ++ SyncEngine.completed s ++ SyncEngine.failed s ++ SyncEngine.dlq s).

End Statements.

Import Statements.

(* ===================================================================== *)
(** * A provider, operations and a world to run the engine on *)
(* ===================================================================== *)

Module Examples.
Import Redis.
Import ExternalAPIClient.
Import SyncEngine.

(** Provider "sf": Salesforce, 6000 requests per minute, burst 10. *)
Definition sf_config : ProviderConfig :=
  {| name := "sf"; provider_type := SALESFORCE;
     base_url := "https://api.salesforce.test";
     rate_limit_per_minute := 6000; burst_limit := 10;
     timeout_seconds := 30; Models.max_retries := 3;
     auth_config :=
       {| auth_type := "api_key";
          credentials := {[ "api_key" := VStr "k" ]};
          token_url := None; refresh_token := None |} |}.

(** A fresh engine with provider "sf" registered. *)
Definition engine : SyncEngine.t :=
  add_provider (@SyncEngine.__init__ AsciiRuntime.runtime empty_store) sf_config.

Definition contact : RecordData :=
  RecordData_new
    (<["first_name" := VStr "A"]>
     (<["last_name" := VStr "B"]>
      (<["email" := VStr "a@b.io"]>
       (<["phone" := VStr "555-123-4567"]>
        (<["company_id" := VStr "c1"]>
         {[ "title" := VStr "Dr" ]}))))).

(** A CREATE for "sf", optionally scheduled. *)
Definition create_op (scheduled : option datetime) : SyncOperation :=
  {| id := "op-1"; operation := CREATE; provider := "sf";
     record_id := None; record_data := Some contact;
     priority := 5; created_at := 0; scheduled_at := scheduled |}.

(** A READ for "sf" that carries no record id. *)
Definition read_op : SyncOperation :=
  {| id := "op-2"; operation := READ; provider := "sf";
     record_id := None; record_data := None;
     priority := 5; created_at := 0; scheduled_at := None |}.

(** A provider that answers every request with [{"id": "x"}]. *)
Definition world_ok : World :=
  {| time_time := 0;
     token_request := fun _ => None;
     http := fun _ _ _ => ret {[ "id" := VStr "x" ]} |}.

(** A clock that reads [now] at every statement of the iteration. *)
Definition clock_at (now : datetime) : Clock :=
  {| now_gate := now; now_started := now; now_completed := now;
     now_retry := now; now_metrics := now |}.

End Examples.

(* ===================================================================== *)
(** * Properties of the schema transformer *)
(* ===================================================================== *)

Section TransformerFacts.
Import SchemaTransformer.

(** Every exception that leaves the mapping loop is a
    [TransformationError]. *)
Lemma transform_value_raises_TransformationError self v n e :
  transform_value self v n = inl e -> exn_cls e = TransformationError.
Proof.
  unfold transform_value.
  destruct (transformers self !! n) as [f|]; [destruct (f v)|];
    intros [= <-]; reflexivity.
Qed.

Lemma transform_loop_raises_TransformationError self input direction mappings :
  forall out e,
    transform_loop self input direction mappings out = inl e ->
    exn_cls e = TransformationError.
Proof.
  induction mappings as [|a rest IH]; intros out e; simpl; [discriminate|].
  destruct (required a && is_none _) eqn:Hreq; [intros [= <-]; reflexivity|].
  destruct (transformer_given a) as [n|]; [|apply IH].
  destruct (negb (is_none _)); [|apply IH].
  destruct (transform_value self _ n) as [e'|v'] eqn:Htv; [|apply IH].
  destruct (required a); [|apply IH].
  intros [= <-]. eapply transform_value_raises_TransformationError, Htv.
Qed.

Lemma transform_value_unknown self v n :
  transformers self !! n = None ->
  transform_value self v n
  = raise TransformationError ("Unknown transformer: " +:+ n).
Proof.
  intros H. unfold transform_value.
  destruct (transformers self !! n) eqn:E; [congruence|reflexivity].
Qed.

Lemma transformer_given_Some m n :
  transformer m = Some n -> n <> "" -> transformer_given m = Some n.
Proof.
  intros H Hn. unfold transformer_given. rewrite H.
  destruct (String.eqb n "") eqn:E; [|reflexivity].
  apply String.eqb_eq in E. contradiction.
Qed.

(** A required mapping with an unknown transformer and a source value makes
    the loop raise, wherever it stands in the list. *)
Lemma transform_loop_unknown_required self input direction mappings m n :
  m ∈ mappings ->
  transformer m = Some n -> n <> "" ->
  transformers self !! n = None ->
  is_none (dict_get input (source_field direction m)) = false ->
  required m = true ->
  forall out,
    raises_cls TransformationError
      (transform_loop self input direction mappings out).
Proof.
  intros Hin Ht Hn Hreg Hsrc Hreq.
  induction mappings as [|a rest IH]; [inversion Hin|].
  assert (Hstep : forall out,
    (exists out', transform_loop self input direction (a :: rest) out
                 = transform_loop self input direction rest out')
    \/ raises_cls TransformationError
         (transform_loop self input direction (a :: rest) out)).
  { intros out. simpl.
    destruct (required a && is_none _); [right; eexists; reflexivity|].
    destruct (transformer_given a) as [k|]; [|left; eexists; reflexivity].
    destruct (negb (is_none _)); [|left; eexists; reflexivity].
    destruct (transform_value self _ k) as [e|v] eqn:Htv;
      [|left; eexists; reflexivity].
    destruct (required a); [|left; eexists; reflexivity].
    right. destruct e as [c msg].
    apply transform_value_raises_TransformationError in Htv. simpl in Htv.
    subst c. eexists; reflexivity. }
  apply elem_of_cons in Hin as [<-|Hin].
  - intros out. simpl. rewrite Hreq, Hsrc. simpl.
    rewrite (transformer_given_Some _ _ Ht Hn).
    rewrite (transform_value_unknown _ _ _ Hreg). eexists; reflexivity.
  - intros out. destruct (Hstep out) as [[out' ->]|Hr]; [apply IH, Hin|exact Hr].
Qed.

(** An optional mapping with an unknown transformer is passed over: its
    field is left out and the loop goes on. *)
Lemma transform_loop_unknown_optional self input direction m rest n out :
  transformer m = Some n -> n <> "" ->
  transformers self !! n = None ->
  is_none (dict_get input (source_field direction m)) = false ->
  required m = false ->
  transform_loop self input direction (m :: rest) out
  = transform_loop self input direction rest out.
Proof.
  intros Ht Hn Hreg Hsrc Hreq. simpl. rewrite Hreq, Hsrc. simpl.
  rewrite (transformer_given_Some _ _ Ht Hn).
  rewrite (transform_value_unknown _ _ _ Hreg). reflexivity.
Qed.

End TransformerFacts.

Section TransformerClaims.
Import SchemaTransformer.

(** C7, as amended.  An unknown transformer name makes [transform_value]
    raise [TransformationError] for every value.  In [transform_record], for
    every record, mapping list and direction: if some mapping names a
    (non-empty) transformer that is not in the registry, its source value is
    non-null and the mapping is marked required, the call raises
    [TransformationError].  (For an optional mapping the error is caught and
    the field skipped: [transform_loop_unknown_optional].) *)
Theorem unknown_transformer_raises_when_required
    (self : SchemaTransformer.t) (record_data : RecordData)
    (mappings : list SchemaMapping) (direction : string)
    (m : SchemaMapping) (n : string) :
  m ∈ mappings ->
  transformer m = Some n -> n <> "" ->
  transformers self !! n = None ->
  dict_get (data record_data) (source_field direction m) <> VNone ->
  required m = true ->
  (forall v, raises_cls TransformationError (transform_value self v n))
  /\ raises_cls TransformationError
       (transform_record self record_data mappings direction).
Proof.
  intros Hin Ht Hn Hreg Hsrc Hreq. split.
  - intros v. rewrite (transform_value_unknown _ _ _ Hreg). eexists; reflexivity.
  - unfold transform_record.
    eapply transform_loop_unknown_required; eauto.
    destruct (dict_get _ _); simpl; congruence.
Qed.

Lemma unknown_transformer_raises_when_required_witness :
  let self := @__init__ AsciiRuntime.runtime in
  let m := {| internal_field := "a"; external_field := "b";
              transformer := Some "nope"; required := true |} in
  let r := RecordData_new {[ "a" := VStr "x" ]} in
  (forall v, raises_cls TransformationError (transform_value self v "nope"))
  /\ raises_cls TransformationError
       (transform_record self r [m] "internal_to_external").
Proof.
  intros self m r.
  apply (unknown_transformer_raises_when_required self r [m]
           "internal_to_external" m "nope").
  - apply list_elem_of_here.
  - reflexivity.
  - discriminate.
  - vm_compute. reflexivity.
  - vm_compute. discriminate.
  - reflexivity.
Defined.

(** C7 as stated fails: an optional mapping naming an unknown transformer,
    with a non-null source value, does not make [transform_record] raise. *)
Lemma unknown_transformer_optional_counterexample :
  let self := @__init__ AsciiRuntime.runtime in
  let m := {| internal_field := "a"; external_field := "b";
              transformer := Some "nope"; required := false |} in
  let r := RecordData_new {[ "a" := VStr "x" ]} in
  transformers self !! "nope" = None
  /\ dict_get (data r) (source_field "internal_to_external" m) = VStr "x"
  /\ transform_record self r [m] "internal_to_external" = ret ∅.
Proof. vm_compute. repeat split. Qed.

Lemma builtins_lookup {rt : Runtime} name f :
  transformers __init__ !! name = Some f -> (name, f) ∈ builtins.
Proof. apply elem_of_list_to_map_2. Qed.

(** C8, as amended.  The registry is created with the twelve built-ins
    [to_upper], [to_lower], [to_string], [to_int], [to_float], [to_bool],
    [format_phone], [format_email], [format_date], [clean_html],
    [truncate_255] and [remove_special_chars].  For every one of them, a
    null input gives null.  The empty string gives null for every built-in except
    [to_string], [to_int], [to_float] and [to_bool], which test
    [x is not None]: on the empty string [to_string] returns the empty
    string, [to_bool] returns false, and [to_int] and [to_float] raise
    [ValueError]. *)
Theorem builtins_on_null_and_empty (rt : Runtime) (laws : RuntimeLaws rt) :
  (forall name, is_Some (transformers __init__ !! name) <-> name ∈ builtin_names)
  /\ (forall name f, transformers __init__ !! name = Some f ->
     f VNone = ret VNone)
  /\ (forall name f, transformers __init__ !! name = Some f ->
        name ∉ none_tested -> f (VStr "") = ret VNone)
  /\ (transformers __init__ !! "to_string" = Some to_string
      /\ to_string (VStr "") = ret (VStr ""))
  /\ (transformers __init__ !! "to_bool" = Some to_bool
      /\ to_bool (VStr "") = ret (VBool false))
  /\ (transformers __init__ !! "to_int" = Some to_int
      /\ raises_cls ValueError (to_int (VStr "")))
  /\ (transformers __init__ !! "to_float" = Some to_float
      /\ raises_cls ValueError (to_float (VStr ""))).
Proof.
  repeat split.
  - intros [f H%builtins_lookup]. unfold builtins in H.
    repeat (apply elem_of_cons in H as [[= -> ->]|H]; [compute_done|]).
    inversion H.
  - intros H. unfold builtin_names in H.
    repeat (apply elem_of_cons in H as [->|H]; [eexists; reflexivity|]).
    inversion H.
  - intros name f H%builtins_lookup. unfold builtins in H.
    repeat (apply elem_of_cons in H as [[= -> ->]|H]; [reflexivity|]).
    inversion H.
  - intros name f H%builtins_lookup Hn. unfold builtins in H.
    repeat (apply elem_of_cons in H as [[= -> ->]|H];
            [first [reflexivity | exfalso; apply Hn; unfold none_tested; set_solver]|]).
    inversion H.
  - unfold to_string. simpl. rewrite py_str_str. reflexivity.
  - apply py_int_empty.
  - apply py_float_empty.
Qed.

Lemma builtins_on_null_and_empty_witness :
  (forall name f,
     transformers (@__init__ AsciiRuntime.runtime) !! name = Some f ->
     f VNone = ret VNone)
  /\ @to_string AsciiRuntime.runtime (VStr "") = ret (VStr "")
  /\ raises_cls ValueError (@to_int AsciiRuntime.runtime (VStr "")).
Proof.
  assert (laws : RuntimeLaws AsciiRuntime.runtime).
  { constructor.
    - intros s. reflexivity.
    - eexists. vm_compute. reflexivity.
    - eexists. vm_compute. reflexivity. }
  destruct (builtins_on_null_and_empty AsciiRuntime.runtime laws)
    as (_ & H1 & _ & [_ H3] & _ & [_ H5] & _).
  exact (conj H1 (conj H3 H5)).
Defined.

(** C8 as stated fails: [to_string] and [to_bool] do not return null on the
    empty string. *)
Lemma builtins_empty_string_counterexample :
  transformers (@__init__ AsciiRuntime.runtime) !! "to_string"
    = Some (@to_string AsciiRuntime.runtime)
  /\ @to_string AsciiRuntime.runtime (VStr "") = ret (VStr "")
  /\ @to_string AsciiRuntime.runtime (VStr "") <> ret VNone
  /\ to_bool (VStr "") <> ret VNone
  /\ raises (@to_int AsciiRuntime.runtime (VStr "")) = true.
Proof. vm_compute. repeat split; discriminate. Qed.

End TransformerClaims.

Section TransformerRoundTrip.
Import SchemaTransformer.

Lemma transform_loop_plain self input direction mappings :
  (forall m, m ∈ mappings -> transformer m = None) ->
  (forall m, m ∈ mappings -> required m = true ->
     is_none (dict_get input (source_field direction m)) = false) ->
  forall out,
    transform_loop self input direction mappings out
    = ret (foldl (emit_step input direction) out mappings).
Proof.
  induction mappings as [|a rest IH]; intros Hnt Hreq out; [reflexivity|].
  simpl.
  assert (Hguard : required a && is_none
            (dict_get input (source_field direction a)) = false).
  { destruct (required a) eqn:E; [|reflexivity].
    simpl. apply Hreq; [apply list_elem_of_here|exact E]. }
  rewrite Hguard.
  unfold transformer_given. rewrite (Hnt a) by apply list_elem_of_here.
  rewrite IH.
  - reflexivity.
  - intros m Hm. apply Hnt. apply list_elem_of_further, Hm.
  - intros m Hm. apply Hreq. apply list_elem_of_further, Hm.
Qed.

Lemma foldl_agree {A B} (f g : A -> B -> A) (l : list B) :
  (forall a b, b ∈ l -> f a b = g a b) ->
  forall a, foldl f a l = foldl g a l.
Proof.
  induction l as [|b l IH]; intros H a; [reflexivity|].
  simpl. rewrite (H a b) by apply list_elem_of_here.
  apply IH. intros a' b' Hb'. apply H. apply list_elem_of_further, Hb'.
Qed.

Lemma foldl_emit_other input direction mappings k :
  k ∉ (target_field direction <$> mappings) ->
  forall out,
    foldl (emit_step input direction) out mappings !! k = out !! k.
Proof.
  induction mappings as [|a rest IH]; intros Hk out; [reflexivity|].
  simpl. rewrite fmap_cons in Hk. apply not_elem_of_cons in Hk as [Hne Hk].
  rewrite (IH Hk). unfold emit_step.
  destruct (negb (is_none _)); [|reflexivity].
  apply lookup_insert_ne. congruence.
Qed.

Lemma foldl_emit_at input direction mappings m :
  NoDup (target_field direction <$> mappings) ->
  m ∈ mappings ->
  forall out,
    foldl (emit_step input direction) out mappings
      !! target_field direction m
    = (let v := dict_get input (source_field direction m) in
       if is_none v then out !! target_field direction m else Some v).
Proof.
  induction mappings as [|a rest IH]; intros Hnd Hin out; [inversion Hin|].
  rewrite fmap_cons in Hnd. apply NoDup_cons in Hnd as [Hfresh Hnd].
  apply elem_of_cons in Hin as [->|Hin].
  - simpl. rewrite (foldl_emit_other _ _ _ _ Hfresh). unfold emit_step.
    destruct (is_none _); simpl; [reflexivity|apply lookup_insert_eq].
  - simpl. rewrite (IH Hnd Hin). simpl.
    destruct (is_none (dict_get input (source_field direction m)));
      [|reflexivity].
    unfold emit_step. destruct (negb (is_none _)); [|reflexivity].
    apply lookup_insert_ne. intros E. apply Hfresh. rewrite E.
    apply list_elem_of_fmap_2, Hin.
Qed.

Lemma dict_get_is_none (d : gmap string value) k :
  is_none (dict_get d k) = true -> dict_get d k = VNone.
Proof. destruct (dict_get d k); simpl; congruence. Qed.

Lemma foldl_restore_keep r mappings k :
  forall acc,
    acc !! k = Some (dict_get r k) ->
    foldl (restore_step r) acc mappings !! k = Some (dict_get r k).
Proof.
  induction mappings as [|a rest IH]; intros acc H; [exact H|].
  simpl. apply IH. unfold restore_step.
  destruct (negb (is_none _)); [|exact H].
  destruct (decide (internal_field a = k)) as [->|Hne].
  - apply lookup_insert_eq.
  - rewrite lookup_insert_ne by exact Hne. exact H.
Qed.

Lemma foldl_restore_in r mappings k :
  k ∈ (internal_field <$> mappings) ->
  is_none (dict_get r k) = false ->
  forall acc, foldl (restore_step r) acc mappings !! k = Some (dict_get r k).
Proof.
  induction mappings as [|a rest IH]; intros Hin Hv acc; [inversion Hin|].
  rewrite fmap_cons in Hin. simpl.
  destruct (decide (internal_field a = k)) as [E|Hne].
  - subst k. apply foldl_restore_keep. unfold restore_step at 1.
    rewrite Hv. simpl. apply lookup_insert_eq.
  - apply IH; [|exact Hv].
    apply elem_of_cons in Hin as [E|Hin]; [congruence|exact Hin].
Qed.

Lemma foldl_restore_null r mappings k :
  is_none (dict_get r k) = true ->
  forall acc, foldl (restore_step r) acc mappings !! k = acc !! k.
Proof.
  induction mappings as [|a rest IH]; intros Hv acc; [reflexivity|].
  simpl. rewrite (IH Hv). unfold restore_step.
  destruct (negb (is_none (dict_get r (internal_field a)))) eqn:E;
    [|reflexivity].
  apply lookup_insert_ne. intros Heq. rewrite Heq, Hv in E. discriminate.
Qed.

Lemma covered_once (mappings : list SchemaMapping) k :
  length (filter (fun m => internal_field m = k) mappings) = 1%nat ->
  k ∈ (internal_field <$> mappings).
Proof.
  intros H.
  destruct (filter (fun m => internal_field m = k) mappings) as [|m l] eqn:E;
    [discriminate|].
  assert (Hm : m ∈ filter (fun m => internal_field m = k) mappings)
    by (rewrite E; apply list_elem_of_here).
  apply list_elem_of_filter in Hm as [<- Hm].
  apply list_elem_of_fmap_2, Hm.
Qed.

End TransformerRoundTrip.

Section TransformerRoundTripClaim.
Import SchemaTransformer.

Lemma source_field_i2e m :
  source_field "internal_to_external" m = internal_field m.
Proof. reflexivity. Qed.

Lemma source_field_e2i m :
  source_field "external_to_internal" m = external_field m.
Proof. reflexivity. Qed.

Lemma target_field_e2i m :
  target_field "external_to_internal" m = internal_field m.
Proof. reflexivity. Qed.

Lemma present_not_none (d : gmap string value) k :
  (forall k v, d !! k = Some v -> v <> VNone) ->
  is_Some (d !! k) -> is_none (dict_get d k) = false.
Proof.
  intros Hnn [v Hv]. unfold dict_get. rewrite Hv. simpl.
  specialize (Hnn _ _ Hv). destruct v; simpl; congruence.
Qed.

(** C9, as amended.  For every record [r] and mapping list [M] in which no
    mapping specifies a transformer, every field of [r] is the
    [internal_field] of exactly one mapping of [M], the [external_field]s of
    [M] are pairwise distinct, every value of [r] is non-null, and every
    mapping of [M] marked required has its [internal_field] among the fields
    of [r]: transforming [r] internal-to-external with [M] succeeds, and
    transforming the result external-to-internal with [M] yields [r]
    again. *)
Theorem transform_round_trip (self : SchemaTransformer.t) (r : RecordData)
    (M : list SchemaMapping) :
  (forall m, m ∈ M -> transformer m = None) ->
  (forall k, is_Some (data r !! k) ->
     length (filter (fun m => internal_field m = k) M) = 1%nat) ->
  NoDup (external_field <$> M) ->
  (forall k v, data r !! k = Some v -> v <> VNone) ->
  (forall m, m ∈ M -> required m = true ->
     is_Some (data r !! internal_field m)) ->
  exists ext,
    transform_record self r M "internal_to_external" = ret ext
    /\ transform_record self (RecordData_new ext) M "external_to_internal"
       = ret (data r).
Proof.
  intros Hnt Hcov Hnd Hnn Hreq.
  set (ext := foldl (emit_step (data r) "internal_to_external") ∅ M).
  assert (Hext : forall m, m ∈ M ->
            dict_get ext (external_field m)
            = dict_get (data r) (internal_field m)).
  { intros m Hm. unfold dict_get at 1. unfold ext.
    change (external_field m) with (target_field "internal_to_external" m).
    rewrite foldl_emit_at; [|exact Hnd|exact Hm].
    simpl. rewrite source_field_i2e.
    destruct (is_none (dict_get (data r) (internal_field m))) eqn:E.
    - rewrite lookup_empty. simpl. symmetry. apply dict_get_is_none, E.
    - reflexivity. }
  exists ext. split.
  - unfold transform_record. apply transform_loop_plain; [exact Hnt|].
    intros m Hm Hr. rewrite source_field_i2e.
    apply present_not_none; [exact Hnn|]. apply Hreq; assumption.
  - unfold transform_record. simpl data.
    rewrite transform_loop_plain; [|exact Hnt|].
    + f_equal.
      rewrite (foldl_agree _ (restore_step (data r))).
      * apply map_eq. intros k.
        destruct (data r !! k) as [v|] eqn:Hk.
        -- rewrite foldl_restore_in.
           ++ unfold dict_get. rewrite Hk. reflexivity.
           ++ apply covered_once, Hcov. rewrite Hk. eexists; reflexivity.
           ++ apply present_not_none; [exact Hnn|].
              rewrite Hk. eexists; reflexivity.
        -- rewrite foldl_restore_null.
           ++ apply lookup_empty.
           ++ unfold dict_get. rewrite Hk. reflexivity.
      * intros acc m Hm. unfold emit_step, restore_step.
        rewrite source_field_e2i, target_field_e2i, (Hext m Hm). reflexivity.
    + intros m Hm Hr. rewrite source_field_e2i, (Hext m Hm).
      apply present_not_none; [exact Hnn|]. apply Hreq; assumption.
Qed.

Lemma transform_round_trip_witness :
  let self := @__init__ AsciiRuntime.runtime in
  let r := RecordData_new (<["a" := VInt 1]> {[ "b" := VStr "x" ]}) in
  let M := [ {| internal_field := "a"; external_field := "A";
                transformer := None; required := true |};
             {| internal_field := "b"; external_field := "B";
                transformer := None; required := false |};
             {| internal_field := "c"; external_field := "C";
                transformer := None; required := false |} ] in
  exists ext,
    transform_record self r M "internal_to_external" = ret ext
    /\ transform_record self (RecordData_new ext) M "external_to_internal"
       = ret (data r).
Proof.
  intros self r M.
  apply (transform_round_trip self r M).
  - intros m Hm. unfold M in Hm.
    repeat (apply elem_of_cons in Hm as [->|Hm]; [reflexivity|]).
    inversion Hm.
  - intros k [v Hk]. simpl in Hk.
    destruct (decide (k = "a")) as [->|Ha]; [reflexivity|].
    destruct (decide (k = "b")) as [->|Hb]; [reflexivity|].
    rewrite lookup_insert_ne, lookup_singleton_ne in Hk by congruence.
    discriminate.
  - compute_done.
  - intros k v Hk. simpl in Hk.
    apply lookup_insert_Some in Hk as [[_ <-]|[_ Hk]]; [discriminate|].
    apply lookup_singleton_Some in Hk as [_ <-]. discriminate.
  - intros m Hm Hr. unfold M in Hm.
    repeat (apply elem_of_cons in Hm as [->|Hm];
            [first [discriminate Hr | eexists; vm_compute; reflexivity]|]).
    inversion Hm.
Defined.

(** C9 as stated fails: a mapping marked required whose [internal_field] is
    not a field of the record makes the first transformation raise, although
    the record and the mapping list meet every condition of the claim. *)
Lemma transform_round_trip_counterexample :
  let self := @__init__ AsciiRuntime.runtime in
  let r := RecordData_new {[ "first_name" := VStr "A" ]} in
  let M := [ SchemaMapping_new "first_name" "FirstName" None None;
             SchemaMapping_new "last_name" "LastName" None (Some true) ] in
  (forall m, m ∈ M -> transformer m = None)
  /\ (forall k, is_Some (data r !! k) ->
        length (filter (fun m => internal_field m = k) M) = 1%nat)
  /\ NoDup (external_field <$> M)
  /\ (forall k v, data r !! k = Some v -> v <> VNone)
  /\ transform_record self r M "internal_to_external"
     = raise TransformationError "Required field 'last_name' is missing".
Proof.
  intros self r M. repeat split.
  - intros m Hm. unfold M in Hm.
    repeat (apply elem_of_cons in Hm as [->|Hm]; [reflexivity|]).
    inversion Hm.
  - intros k [v Hk]. simpl in Hk.
    apply lookup_singleton_Some in Hk as [<- _]. reflexivity.
  - compute_done.
  - intros k v Hk. simpl in Hk.
    apply lookup_singleton_Some in Hk as [_ <-]. discriminate.
Qed.

End TransformerRoundTripClaim.

(* ===================================================================== *)
(** * Properties of the token bucket *)
(* ===================================================================== *)

Section TokenBucketClaim.
Import Redis.
Import TokenBucket.

Lemma refilled_bounds self bucket_data now :
  (0 <= refill_rate self)%Q ->
  bucket_ok self bucket_data now ->
  (0 <= refilled self bucket_data now)%Q
  /\ (refilled self bucket_data now <= inject_Z (capacity self))%Q.
Proof.
  intros Hrate (Hcap & Htok & Hlast). unfold refilled.
  set (t := default (inject_Z (capacity self)) bucket_data.1).
  set (l := default now bucket_data.2).
  assert (Ht : (0 <= t)%Q).
  { unfold t. destruct bucket_data.1 as [t0|]; simpl; [|exact Hcap].
    apply (Htok t0 eq_refl). }
  assert (Hl : (l <= now)%Q).
  { unfold l. destruct bucket_data.2 as [l0|]; simpl; [|apply Qle_refl].
    apply (Hlast l0 eq_refl). }
  assert (Hadd : (0 <= inject_Z (Qfloor ((now - l) * refill_rate self)))%Q).
  { change 0%Q with (inject_Z 0). rewrite <- Zle_Qle.
    change 0%Z with (Qfloor (inject_Z 0)).
    apply Qfloor_resp_le. apply Qmult_le_0_compat; [|exact Hrate].
    unfold Qminus. rewrite <- (Qplus_opp_r l).
    apply Qplus_le_l. exact Hl. }
  split.
  - apply Q.min_glb; [exact Hcap|].
    rewrite <- (Qplus_0_r 0). apply Qplus_le_compat; assumption.
  - apply Q.le_min_l.
Qed.

Lemma add_provider_bucket mgr provider rate_limit_per_minute burst_limit :
  exists b,
    RateLimiterManager.limiters
      (RateLimiterManager.add_provider mgr provider rate_limit_per_minute
         burst_limit) !! provider = Some b
    /\ capacity b = burst_limit
    /\ refill_rate b = (inject_Z rate_limit_per_minute / 60)%Q.
Proof.
  eexists. split; [apply lookup_insert_eq|]. split; reflexivity.
Qed.


(** What [consume] returns and stores, for every state. *)
Lemma consume_effect (self : TokenBucket.t) (h : gmap string bucket_hash)
    (provider : string) (n : Z) (now : Q) :
  let key := bucket_key self provider in
  let r := refilled self (hmget h key) now in
  let '(ok, h') := consume self h provider n now in
  (ok = true <-> (inject_Z n <= r)%Q)
  /\ h' !! key
     = Some {| tokens := if ok then (r - inject_Z n)%Q else r;
               last_refill := now |}
  /\ (forall key', key' <> key -> h' !! key' = h !! key').
Proof.
  intros key r. unfold consume. fold key. fold r.
  destruct (Qle_bool (inject_Z n) r) eqn:E.
  - apply Qle_bool_iff in E.
    split; [split; intros _; [exact E|reflexivity]|].
    split; [apply lookup_insert_eq|].
    intros key' Hne; apply lookup_insert_ne; congruence.
  - assert (Hlt : ~ (inject_Z n <= r)%Q).
    { intros Hle. apply Qle_bool_iff in Hle. congruence. }
    split; [split; [discriminate|intros Hle; contradiction]|].
    split; [apply lookup_insert_eq|].
    intros key' Hne; apply lookup_insert_ne; congruence.
Qed.






End TokenBucketClaim.

(* ===================================================================== *)
(** * Properties of the sync engine *)
(* ===================================================================== *)

Section SubmitAndStatus.
Import Redis.
Import SyncEngine.

(** C6.  For every operation submitted with a provider name that is not
    registered, [submit_operation] fails at once with the error
    [Unknown provider: <name>] (a [ValueError]), and the engine is left as
    it was: no entry is added to any of the five tiers and the
    [operations_submitted] counter is not incremented. *)
Theorem submit_unknown_provider_is_rejected
    (self : SyncEngine.t) (operation : SyncOperation) (now : datetime) :
  providers self !! provider operation = None ->
  let '(r, self') := submit_operation self operation now in
  r = raise ValueError ("Unknown provider: " +:+ provider operation)
  /\ self' = self
  /\ pending (redis self') = pending (redis self)
  /\ processing (redis self') = processing (redis self)
  /\ completed (redis self') = completed (redis self)
  /\ failed (redis self') = failed (redis self)
  /\ dlq (redis self') = dlq (redis self)
  /\ get_int (metrics (redis self')) (current_hour now, "operations_submitted")
     = get_int (metrics (redis self)) (current_hour now, "operations_submitted").
Proof.
  intros H. unfold submit_operation.
  destruct (providers self !! provider operation) eqn:E; [discriminate|].
  repeat split; reflexivity.
Qed.

Lemma submit_unknown_provider_is_rejected_witness :
  let self := @SyncEngine.__init__ AsciiRuntime.runtime empty_store in
  let operation :=
    {| id := "op-1"; operation := CREATE; provider := "nope";
       record_id := None;
       record_data := Some (RecordData_new {[ "last_name" := VStr "B" ]});
       priority := 5; created_at := 0; scheduled_at := None |} in
  submit_operation self operation 0
  = (raise ValueError "Unknown provider: nope", self).
Proof.
  intros self operation.
  pose proof (submit_unknown_provider_is_rejected self operation 0) as H.
  destruct (submit_operation self operation 0) as [r self'].
  destruct H as (-> & -> & _); [vm_compute; reflexivity|].
  reflexivity.
Defined.

Lemma find_absent {A} (f : A -> bool) (l : list A) :
  (forall x, x ∈ l -> f x = false) -> List.find f l = None.
Proof.
  induction l as [|a l IH]; intros H; [reflexivity|]. simpl.
  rewrite (H a) by apply list_elem_of_here.
  apply IH. intros x Hx. apply H. apply list_elem_of_further, Hx.
Qed.

Lemma find_present {A} (f : A -> bool) (l : list A) x :
  x ∈ l -> f x = true ->
  exists y, List.find f l = Some y /\ y ∈ l /\ f y = true.
Proof.
  induction l as [|a l IH]; intros Hx Hf; [inversion Hx|]. simpl.
  destruct (f a) eqn:E.
  - exists a. split; [reflexivity|]. split; [apply list_elem_of_here|exact E].
  - apply elem_of_cons in Hx as [->|Hx]; [congruence|].
    destruct (IH Hx Hf) as (y & Hy & Hin & Hfy).
    exists y. split; [exact Hy|]. split; [apply list_elem_of_further, Hin|exact Hfy].
Qed.

Lemma id_differs (operation_id : string) (l : list OpDict) :
  (forall data, data ∈ l -> d_id data <> operation_id) ->
  List.find (fun data => String.eqb (d_id data) operation_id) l = None.
Proof.
  intros H. apply find_absent. intros x Hx.
  apply String.eqb_neq. apply H, Hx.
Qed.

(** C10.  For every operation id that the status query finds in the
    dead_letter tier (no entry of the four tiers read before it carries the
    id), the returned status is [FAILED], which is also the status given to
    the same entry found in the failed tier: the status field does not tell
    the two terminal tiers apart. *)
Theorem dead_letter_status_is_failed
    (self : SyncEngine.t) (operation_id : string) (entry : OpDict) :
  (forall data, data ∈ zrange (pending (redis self)) ->
     d_id data <> operation_id) ->
  (forall data, data ∈ zrange (processing (redis self)) ->
     d_id data <> operation_id) ->
  (forall data, data ∈ completed (redis self) -> d_id data <> operation_id) ->
  (forall data, data ∈ failed (redis self) -> d_id data <> operation_id) ->
  entry ∈ dlq (redis self) -> d_id entry = operation_id ->
  exists data,
    data ∈ dlq (redis self) /\ d_id data = operation_id
    /\ get_operation_status self operation_id
       = Some (_deserialize_sync_result data DLQ)
    /\ status (_deserialize_sync_result data DLQ) = FAILED
    /\ status (_deserialize_sync_result data FAILED_QUEUE) = FAILED.
Proof.
  intros Hp Hq Hc Hf Hin Hid.
  destruct (find_present (fun data => String.eqb (d_id data) operation_id)
              (dlq (redis self)) entry Hin) as (y & Hy & Hyin & Hyid).
  { apply String.eqb_eq, Hid. }
  exists y. split; [exact Hyin|]. split; [apply String.eqb_eq, Hyid|].
  split; [|split; reflexivity].
  unfold get_operation_status, queues, scan_queues, lrange.
  rewrite (id_differs _ _ Hp), (id_differs _ _ Hq), (id_differs _ _ Hc),
    (id_differs _ _ Hf), Hy.
  reflexivity.
Qed.

Lemma dead_letter_status_is_failed_witness :
  let entry :=
    {| d_id := "op-1"; d_operation := READ; d_provider := "sf";
       d_record_id := None; d_record_data := None; d_priority := 5;
       d_created_at := 0; d_scheduled_at := Some 7000000;
       d_started_at := None; d_completed_at := None;
       d_response_data := None; d_external_id := VNone;
       d_error_message := Some "Unexpected error: 'record_id'";
       d_retry_count := Some 3%nat |} in
  let self :=
    with_redis (@SyncEngine.__init__ AsciiRuntime.runtime empty_store)
      (with_dlq empty_store [entry]) in
  status <$> get_operation_status self "op-1" = Some FAILED.
Proof.
  intros entry self.
  assert (Hnone : forall data : OpDict, data ∈ [] -> d_id data <> "op-1")
    by (intros data H; inversion H).
  destruct (dead_letter_status_is_failed self "op-1" entry
              Hnone Hnone Hnone Hnone (list_elem_of_here _ _) eq_refl)
    as (data & _ & _ & -> & Hs & _).
  exact (f_equal Some Hs).
Defined.

End SubmitAndStatus.

Section WorkerFacts.
Import Redis.
Import ExternalAPIClient.
Import SyncEngine.

Lemma zrem_absent {M} `{EqDecision M} (z : zset M) (m : M) :
  m ∉ zrange (zrem z m).
Proof.
  unfold zrange, zrem. intros H.
  apply list_elem_of_fmap in H as ([m' s] & -> & H).
  apply list_elem_of_filter in H as [H _]. apply H. reflexivity.
Qed.

Lemma zinsert_elem {M} (m : M) (s : Z) (z : zset M) :
  (m, s) ∈ zinsert m s z.
Proof.
  induction z as [|[m' s'] z IH]; simpl.
  - apply list_elem_of_here.
  - destruct (Z.ltb s s').
    + apply list_elem_of_here.
    + apply list_elem_of_further, IH.
Qed.

Lemma zadd_elem {M} `{EqDecision M} (z : zset M) (m : M) (s : Z) :
  (m, s) ∈ zadd z m s.
Proof. apply zinsert_elem. Qed.

Lemma get_int_incrby {K} `{Countable K} (c : gmap K Z) (k : K) (n : Z) :
  get_int (incrby c k n) k = get_int c k + n.
Proof. unfold get_int, incrby. rewrite lookup_insert_eq. reflexivity. Qed.


(** A dispatch writes only the keys [started_at], [completed_at],
    [response_data] and [external_id] of the operation dict. *)
Lemma dispatch_preserves self w c d r d' h :
  dispatch self w c d = (r, d', h) ->
  d_id d' = d_id d /\ d_operation d' = d_operation d
  /\ d_provider d' = d_provider d /\ d_record_id d' = d_record_id d
  /\ d_record_data d' = d_record_data d /\ d_priority d' = d_priority d
  /\ d_created_at d' = d_created_at d /\ d_scheduled_at d' = d_scheduled_at d
  /\ d_retry_count d' = d_retry_count d
  /\ d_error_message d' = d_error_message d.
Proof.
  unfold dispatch.
  destruct (providers self !! d_provider d) as [cfg|];
    [|intros [= <- <- <-]; repeat split].
  destruct (__aenter__ _ w); [intros [= <- <- <-]; repeat split|].
  destruct (execute_operation _ w _ _ _) as [[e|response] h0];
    [intros [= <- <- <-]; repeat split|].
  destruct (_ && _); intros [= <- <- <-]; repeat split.
Qed.

(** The tiers play no part in a dispatch. *)
Lemma dispatch_tiers self s w c d :
  buckets s = buckets (redis self) ->
  dispatch (with_redis self s) w c d = dispatch self w c d.
Proof. intros H. unfold dispatch. simpl. rewrite H. reflexivity. Qed.

End WorkerFacts.

Section WorkerClaims.
Import Redis.
Import ExternalAPIClient.
Import SyncEngine.

(** C3.  For every operation popped by a worker whose dispatch fails with
    any exception: the operation leaves the in_flight tier, and if its
    [retry_count] before the attempt is below 3 the worker increments it,
    sets [scheduled_at] to now plus [min(300, 2^(retry_count-1))] seconds
    ([retry_count] being the incremented value) and re-enqueues the
    operation to the pending tier at the priority it was popped with;
    otherwise the worker pushes it to the dead_letter tier and increments
    the [operations_failed] counter. *)
Theorem failed_dispatch_is_retried_or_dead_lettered
    (self : SyncEngine.t) (w : World) (c : Clock)
    (operation_data : OpDict) (priority : Z) (rest : zset OpDict)
    (e : exn) (operation_dict : OpDict) (h : gmap string bucket_hash) :
  pending (redis self) = (operation_data, priority) :: rest ->
  scheduled_in_future c operation_data = false ->
  dispatch self w c operation_data = (inl e, operation_dict, h) ->
  let retry_count := default 0%nat (d_retry_count operation_data) in
  let s := redis self in
  let s' := redis (_worker_loop_body self w c) in
  (operation_data ∉ zrange (processing s'))
  /\ completed s' = completed s
  /\ failed s' = failed s
  /\ if Nat.ltb retry_count 3 then
       exists entry,
         pending s' = zadd rest entry priority
         /\ (entry, priority) ∈ pending s'
         /\ d_id entry = d_id operation_data
         /\ d_retry_count entry = Some (retry_count + 1)%nat
         /\ d_scheduled_at entry
            = Some (now_retry c
                    + timedelta_seconds
                        (Z.min 300 (2 ^ (Z.of_nat (retry_count + 1) - 1))))
         /\ d_error_message entry = Some (error_message_of e)
         /\ dlq s' = dlq s
         /\ metrics s' = metrics s
     else
       pending s' = rest
       /\ dlq s' = operation_data :: dlq s
       /\ get_int (metrics s') (current_hour (now_metrics c), "operations_failed")
          = get_int (metrics s) (current_hour (now_metrics c), "operations_failed") + 1.
Proof.
  intros Hpending Hgate Hdisp retry_count s s'.
  destruct (dispatch_preserves _ _ _ _ _ _ _ Hdisp)
    as (Hid & _ & _ & _ & _ & _ & _ & _ & Hrc & _).
  unfold s', _worker_loop_body. rewrite Hpending. cbn [bzpopmin].
  unfold _process_operation. rewrite Hgate.
  rewrite dispatch_tiers by reflexivity. rewrite Hdisp.
  cbn [d_retry_count set_error_message]. rewrite Hrc. fold retry_count.
  unfold max_retries.
  destruct (Nat.ltb retry_count 3) eqn:Hlt.
  - split; [apply zrem_absent|]. split; [reflexivity|]. split; [reflexivity|].
    eexists. split; [reflexivity|]. split; [apply zadd_elem|].
    split; [exact Hid|]. split; [reflexivity|]. split.
    { cbn. unfold retry_delay. repeat f_equal. lia. }
    split; [reflexivity|]. split; reflexivity.
  - split; [apply zrem_absent|]. split; [reflexivity|]. split; [reflexivity|].
    split; [reflexivity|]. split; [reflexivity|].
    cbn. apply get_int_incrby.
Qed.


Lemma failed_dispatch_is_retried_or_dead_lettered_witness :
  let self := (submit_operation Examples.engine Examples.read_op 0).2 in
  let s' := redis (_worker_loop_body self Examples.world_ok (Examples.clock_at 0)) in
  exists entry,
    pending s' = [(entry, 5)]
    /\ d_retry_count entry = Some 1%nat
    /\ d_scheduled_at entry = Some 1000000
    /\ dlq s' = [].
Proof.
  intros self s'.
  destruct (dispatch self Examples.world_ok (Examples.clock_at 0)
              (operation_data_of Examples.read_op))
    as [[[e|response] operation_dict] h] eqn:Hdisp;
    [|vm_compute in Hdisp; discriminate Hdisp].
  destruct (failed_dispatch_is_retried_or_dead_lettered self
              Examples.world_ok (Examples.clock_at 0)
              (operation_data_of Examples.read_op) 5 [] e operation_dict h
              eq_refl eq_refl Hdisp)
    as (_ & _ & _ & entry & Hp & _ & _ & Hrc & Hs & _ & Hd & _).
  exists entry. split; [exact Hp|]. split; [exact Hrc|].
  split; [exact Hs|exact Hd].
Defined.

(** What the worker does after a dispatch that succeeded: the entry pushed
    to the completed tier is the popped one, as it was serialized before the
    dispatch. *)
Lemma successful_dispatch_pushes_popped_entry
    (self : SyncEngine.t) (w : World) (c : Clock)
    (operation_data : OpDict) (priority : Z) (rest : zset OpDict)
    (response : json) (operation_dict : OpDict) (h : gmap string bucket_hash) :
  pending (redis self) = (operation_data, priority) :: rest ->
  scheduled_in_future c operation_data = false ->
  dispatch self w c operation_data = (inr response, operation_dict, h) ->
  let s := redis self in
  let s' := redis (_worker_loop_body self w c) in
  d_completed_at operation_dict = Some (now_completed c)
  /\ d_response_data operation_dict = Some response
  /\ (operation_data ∉ zrange (processing s'))
  /\ pending s' = rest
  /\ completed s' = operation_data :: completed s
  /\ get_int (metrics s') (current_hour (now_metrics c), "operations_completed")
     = get_int (metrics s) (current_hour (now_metrics c), "operations_completed") + 1.
Proof.
  intros Hpending Hgate Hdisp s s'.
  assert (Hdict : d_completed_at operation_dict = Some (now_completed c)
                  /\ d_response_data operation_dict = Some response).
  { revert Hdisp. unfold dispatch.
    destruct (providers self !! d_provider operation_data); [|discriminate].
    destruct (__aenter__ _ w); [discriminate|].
    destruct (execute_operation _ w _ _ _) as [[e|r] h0]; [discriminate|].
    destruct (_ && _); intros [= <- <- <-]; split; reflexivity. }
  destruct Hdict as [H1 H2]. split; [exact H1|]. split; [exact H2|].
  unfold s', _worker_loop_body. rewrite Hpending. cbn [bzpopmin].
  unfold _process_operation. rewrite Hgate.
  rewrite dispatch_tiers by reflexivity. rewrite Hdisp.
  split; [apply zrem_absent|]. split; [reflexivity|]. split; [reflexivity|].
  cbn. apply get_int_incrby.
Qed.

(** What the worker does with a popped operation that is scheduled for
    later: [_process_operation] re-adds it to the pending tier and reports
    success, so the worker also pushes it to the completed tier and counts
    it as completed. *)
Lemma future_scheduled_is_pushed_to_completed
    (self : SyncEngine.t) (w : World) (c : Clock)
    (operation_data : OpDict) (priority : Z) (rest : zset OpDict) :
  pending (redis self) = (operation_data, priority) :: rest ->
  scheduled_in_future c operation_data = true ->
  let s := redis self in
  let s' := redis (_worker_loop_body self w c) in
  pending s' = zadd rest operation_data (d_priority operation_data)
  /\ (operation_data ∉ zrange (processing s'))
  /\ completed s' = operation_data :: completed s
  /\ failed s' = failed s
  /\ dlq s' = dlq s
  /\ buckets s' = buckets s
  /\ get_int (metrics s') (current_hour (now_metrics c), "operations_completed")
     = get_int (metrics s) (current_hour (now_metrics c), "operations_completed") + 1.
Proof.
  intros Hpending Hgate s s'.
  unfold s', _worker_loop_body. rewrite Hpending. cbn [bzpopmin].
  unfold _process_operation. rewrite Hgate.
  split; [reflexivity|]. split; [apply zrem_absent|].
  split; [reflexivity|]. split; [reflexivity|]. split; [reflexivity|].
  split; [reflexivity|]. cbn. apply get_int_incrby.
Qed.

(** C1, on the code.  A CREATE for provider "sf" is submitted and popped;
    its dispatch succeeds with the response [{"id": "x"}], and
    [_process_operation] sets [completed_at], [response_data] and
    [external_id = "x"] in the operation dict.  The worker removes the
    operation from the in_flight tier and counts it as completed, but the
    entry it pushes to the completed tier is the text popped from the
    pending tier: it has no [completed_at], no [response_data] and no
    [external_id], and the status query reports [COMPLETED] without them. *)
Theorem completed_entry_lacks_dispatch_outcome :
  let self := (submit_operation Examples.engine (Examples.create_op None) 0).2 in
  let c := Examples.clock_at 5 in
  let popped := operation_data_of (Examples.create_op None) in
  let outcome := dispatch self Examples.world_ok c popped in
  let self' := _worker_loop_body self Examples.world_ok c in
  pending (redis self) = [(popped, 5)]
  /\ outcome.1.1 = ret {[ "id" := VStr "x" ]}
  /\ d_completed_at outcome.1.2 = Some 5
  /\ d_response_data outcome.1.2 = Some {[ "id" := VStr "x" ]}
  /\ d_external_id outcome.1.2 = VStr "x"
  /\ processing (redis self') = []
  /\ get_int (metrics (redis self')) (current_hour 5, "operations_completed") = 1
  /\ completed (redis self') = [popped]
  /\ d_completed_at popped = None
  /\ d_response_data popped = None
  /\ d_external_id popped = VNone
  /\ get_operation_status self' "op-1"
     = Some {| operation_id := "op-1"; status := COMPLETED;
               sr_provider := "sf"; external_id := VNone;
               started_at := None; completed_at := None;
               error_message := None; retry_count := 0;
               response_data := None |}.
Proof. vm_compute. repeat split. Qed.

(** C4, on the code.  A CREATE for provider "sf" scheduled at time 100 is
    popped at time 5.  The worker removes it from the in_flight tier and
    re-adds it to the pending tier at its priority without dispatching it,
    and then also pushes it to the completed tier and increments
    [operations_completed]; the status query still finds it pending. *)
Theorem future_scheduled_operation_is_counted_completed :
  let operation := Examples.create_op (Some 100) in
  let self := (submit_operation Examples.engine operation 0).2 in
  let c := Examples.clock_at 5 in
  let popped := operation_data_of operation in
  let self' := _worker_loop_body self Examples.world_ok c in
  pending (redis self) = [(popped, 5)]
  /\ completed (redis self) = []
  /\ get_int (metrics (redis self)) (current_hour 5, "operations_completed") = 0
  /\ scheduled_in_future c popped = true
  /\ pending (redis self') = [(popped, 5)]
  /\ processing (redis self') = []
  /\ d_started_at popped = None
  /\ completed (redis self') = [popped]
  /\ get_int (metrics (redis self')) (current_hour 5, "operations_completed") = 1
  /\ status <$> get_operation_status self' "op-1" = Some PENDING.
Proof. vm_compute. repeat split. Qed.

End WorkerClaims.

Section MissingRecordId.
Import Redis.
Import ExternalAPIClient.
Import SyncEngine.














End MissingRecordId.

(* ===================================================================== *)
(** * Further properties of the schema transformer *)
(* ===================================================================== *)

Section TransformerMore.
Import SchemaTransformer.

(** One turn of the mapping loop either raises a [TransformationError] or
    goes on with the remaining mappings. *)
Lemma transform_loop_head self input direction a rest out :
  (exists out', transform_loop self input direction (a :: rest) out
                = transform_loop self input direction rest out')
  \/ raises_cls TransformationError
       (transform_loop self input direction (a :: rest) out).
Proof.
  simpl.
  destruct (required a && is_none _); [right; eexists; reflexivity|].
  destruct (transformer_given a) as [k|]; [|left; eexists; reflexivity].
  destruct (negb (is_none _)); [|left; eexists; reflexivity].
  destruct (transform_value self _ k) as [e|v] eqn:Htv;
    [|left; eexists; reflexivity].
  destruct (required a); [|left; eexists; reflexivity].
  right. destruct e as [c msg].
  apply transform_value_raises_TransformationError in Htv. simpl in Htv.
  subst c. eexists; reflexivity.
Qed.

Lemma transform_loop_missing_required self input direction mappings m :
  m ∈ mappings ->
  required m = true ->
  dict_get input (source_field direction m) = VNone ->
  forall out,
    raises_cls TransformationError
      (transform_loop self input direction mappings out).
Proof.
  intros Hin Hreq Hsrc.
  induction mappings as [|a rest IH]; [inversion Hin|].
  intros out. apply elem_of_cons in Hin as [<-|Hin].
  - simpl. rewrite Hreq, Hsrc. simpl. eexists; reflexivity.
  - destruct (transform_loop_head self input direction a rest out)
      as [[out' ->]|Hr]; [apply IH, Hin|exact Hr].
Qed.

(** The loop keeps its output free of nulls and within the target fields
    of the mappings. *)
Lemma transform_loop_clean self input direction (all : list SchemaMapping)
    mappings :
  (forall m, m ∈ mappings -> m ∈ all) ->
  forall acc out,
    (forall k v, acc !! k = Some v ->
       v <> VNone /\ exists m, m ∈ all /\ target_field direction m = k) ->
    transform_loop self input direction mappings acc = ret out ->
    forall k v, out !! k = Some v ->
      v <> VNone /\ exists m, m ∈ all /\ target_field direction m = k.
Proof.
  induction mappings as [|a rest IH]; intros Hsub acc out Hacc.
  - simpl. intros [= <-]. exact Hacc.
  - assert (Hrest : forall m, m ∈ rest -> m ∈ all)
      by (intros m Hm; apply Hsub, list_elem_of_further, Hm).
    assert (Hemit : forall v0,
      forall k v,
        (if negb (is_none v0)
         then <[target_field direction a := v0]> acc else acc) !! k = Some v ->
        v <> VNone /\ exists m, m ∈ all /\ target_field direction m = k).
    { intros v0 k v. destruct (is_none v0) eqn:E; simpl; [apply Hacc|].
      intros H. apply lookup_insert_Some in H as [[<- <-]|[_ H]].
      - split; [destruct v0; simpl in E; congruence|].
        exists a. split; [apply Hsub, list_elem_of_here|reflexivity].
      - apply Hacc, H. }
    simpl. destruct (required a && is_none _); [discriminate|].
    destruct (transformer_given a) as [n|];
      [|apply (IH Hrest _ _ (Hemit _))].
    destruct (negb (is_none (dict_get input (source_field direction a))))
      eqn:Hsrc; [|apply (IH Hrest _ _ Hacc)].
    destruct (transform_value self _ n) as [e|v'];
      [|apply (IH Hrest _ _ (Hemit _))].
    destruct (required a); [discriminate|apply (IH Hrest _ _ Hacc)].
Qed.

(** X1.  A successful [transform_record] never emits a null: every value
    of its output is non-null, and every key of its output is the target
    field (by the direction) of one of the mappings. *)
Theorem transform_output_has_no_null
    (self : SchemaTransformer.t) (record_data : RecordData)
    (mappings : list SchemaMapping) (direction : string)
    (out : gmap string value) (k : string) (v : value) :
  transform_record self record_data mappings direction = ret out ->
  out !! k = Some v ->
  v <> VNone /\ exists m, m ∈ mappings /\ target_field direction m = k.
Proof.
  intros Hrun Hk. unfold transform_record in Hrun.
  eapply (transform_loop_clean self _ direction mappings mappings);
    [auto| |exact Hrun|exact Hk].
  intros k' v' H. rewrite lookup_empty in H. discriminate.
Qed.

Lemma transform_output_has_no_null_witness :
  let self := @__init__ AsciiRuntime.runtime in
  let r := RecordData_new (<["email" := VStr " A@B.io "]> {[ "title" := VNone ]}) in
  let M := [ SchemaMapping_new "email" "Email" (Some "format_email") None;
             SchemaMapping_new "title" "Title" None (Some false) ] in
  exists out,
    transform_record self r M "internal_to_external" = ret out
    /\ forall k v, out !! k = Some v -> v <> VNone.
Proof.
  intros self r M.
  destruct (transform_record self r M "internal_to_external") as [e|out] eqn:E;
    [vm_compute in E; discriminate E|].
  exists out. split; [reflexivity|].
  intros k v Hk.
  apply (transform_output_has_no_null self r M "internal_to_external" out k v E Hk).
Defined.

(** X2.  A record that lacks (or holds null for) the source field of a
    mapping marked required is always rejected: [transform_record] raises
    [TransformationError], wherever the mapping stands in the list and
    whatever the other mappings do. *)
Theorem missing_required_field_is_rejected
    (self : SchemaTransformer.t) (record_data : RecordData)
    (mappings : list SchemaMapping) (direction : string) (m : SchemaMapping) :
  m ∈ mappings ->
  required m = true ->
  dict_get (data record_data) (source_field direction m) = VNone ->
  raises_cls TransformationError
    (transform_record self record_data mappings direction).
Proof.
  intros Hin Hreq Hsrc. unfold transform_record.
  eapply transform_loop_missing_required; eassumption.
Qed.

Lemma missing_required_field_is_rejected_witness :
  raises_cls TransformationError
    (transform_record (@__init__ AsciiRuntime.runtime)
       (RecordData_new {[ "first_name" := VStr "A" ]})
       [ SchemaMapping_new "first_name" "FirstName" None (Some false);
         SchemaMapping_new "last_name" "LastName" None (Some true) ]
       "internal_to_external").
Proof.
  apply (missing_required_field_is_rejected _ _ _ _
           (SchemaMapping_new "last_name" "LastName" None (Some true))).
  - apply list_elem_of_further, list_elem_of_here.
  - reflexivity.
  - vm_compute. reflexivity.
Defined.

(** X3.  Whatever a registered callable raises, the only exception that
    leaves [transform_record] is [TransformationError]. *)
Theorem transform_record_raises_only_TransformationError
    (self : SchemaTransformer.t) (record_data : RecordData)
    (mappings : list SchemaMapping) (direction : string) (e : exn) :
  transform_record self record_data mappings direction = inl e ->
  exn_cls e = TransformationError.
Proof. apply transform_loop_raises_TransformationError. Qed.

Lemma transform_record_raises_only_TransformationError_witness :
  let self :=
    add_transformer (@__init__ AsciiRuntime.runtime) "boom"
      (fun _ => raise KeyError "'x'") in
  exists e,
    transform_record self (RecordData_new {[ "a" := VInt 1 ]})
      [ SchemaMapping_new "a" "A" (Some "boom") None ] "internal_to_external"
    = inl e
    /\ exn_cls e = TransformationError.
Proof.
  intros self.
  destruct (transform_record self (RecordData_new {[ "a" := VInt 1 ]})
              [ SchemaMapping_new "a" "A" (Some "boom") None ]
              "internal_to_external") as [e|out] eqn:E;
    [|vm_compute in E; discriminate E].
  exists e. split; [reflexivity|].
  apply (transform_record_raises_only_TransformationError _ _ _ _ _ E).
Defined.

Lemma default_mappings_required (p : ProviderType) (m : SchemaMapping) :
  m ∈ get_default_mappings (provider_type_value p) -> required m = true.
Proof.
  destruct p; simpl; intros H;
    repeat (apply elem_of_cons in H as [->|H]; [reflexivity|]);
    inversion H.
Qed.

(** X4.  Every default mapping is required ([SchemaMapping.required]
    defaults to [True] and no default mapping sets it to [False]): for
    every provider type, a record that lacks the internal field of any of
    the provider's default mappings is rejected with
    [TransformationError]. *)
Theorem default_mappings_reject_incomplete_record
    (self : SchemaTransformer.t) (p : ProviderType) (record_data : RecordData)
    (m : SchemaMapping) :
  m ∈ get_default_mappings (provider_type_value p) ->
  dict_get (data record_data) (internal_field m) = VNone ->
  required m = true
  /\ raises_cls TransformationError
       (transform_record self record_data
          (get_default_mappings (provider_type_value p))
          "internal_to_external").
Proof.
  intros Hin Hsrc. split; [eapply default_mappings_required, Hin|].
  unfold transform_record.
  eapply transform_loop_missing_required;
    [exact Hin|eapply default_mappings_required, Hin|exact Hsrc].
Qed.

Lemma default_mappings_reject_incomplete_record_witness :
  raises_cls TransformationError
    (transform_record (@__init__ AsciiRuntime.runtime)
       (RecordData_new (<["first_name" := VStr "A"]> {[ "last_name" := VStr "B" ]}))
       (get_default_mappings "salesforce") "internal_to_external").
Proof.
  refine (proj2 (default_mappings_reject_incomplete_record _ SALESFORCE _
                   (SchemaMapping_new "title" "Title" None None) _ _)).
  - do 5 apply list_elem_of_further. apply list_elem_of_here.
  - vm_compute. reflexivity.
Defined.

(** X5.  [add_transformer] overrides: after registering [func] under
    [name], [transform_value] applies [func] for that name (its exceptions
    re-raised as [TransformationError]), also when [name] was a built-in,
    and every other name behaves as before. *)
Theorem add_transformer_overrides
    (self : SchemaTransformer.t) (name : string) (func : callable) (v : value) :
  transform_value (add_transformer self name func) v name
  = match func v with
    | inr v' => ret v'
    | inl e =>
        raise TransformationError
          ("Transformation '" +:+ name +:+ "' failed: " +:+ exn_msg e)
    end
  /\ forall other, other <> name ->
       transform_value (add_transformer self name func) v other
       = transform_value self v other.
Proof.
  split.
  - unfold transform_value, add_transformer. simpl.
    rewrite lookup_insert_eq. reflexivity.
  - intros other Hne. unfold transform_value, add_transformer. simpl.
    rewrite lookup_insert_ne by congruence. reflexivity.
Qed.

End TransformerMore.

Section AsciiRuntimeFacts.
Import AsciiRuntime.

Lemma ascii_runtime_laws : RuntimeLaws AsciiRuntime.runtime.
Proof.
  constructor.
  - intros s. reflexivity.
  - eexists. vm_compute. reflexivity.
  - eexists. vm_compute. reflexivity.
Qed.

Lemma lstrip_idem s : lstrip (lstrip s) = lstrip s.
Proof.
  induction s as [|c s IH]; [reflexivity|]. simpl.
  destruct (is_space c) eqn:E; [exact IH|]. simpl. rewrite E. reflexivity.
Qed.

Lemma rstrip_idem s : rstrip (rstrip s) = rstrip s.
Proof.
  induction s as [|c s IH]; [reflexivity|]. simpl.
  destruct (rstrip s) as [|c' r] eqn:Er.
  - destruct (is_space c) eqn:E; [reflexivity|]. simpl. rewrite E. reflexivity.
  - change (rstrip (String c (String c' r)))
      with (match rstrip (String c' r) with
            | EmptyString =>
                if is_space c then EmptyString else String c EmptyString
            | r0 => String c r0
            end).
    rewrite IH. reflexivity.
Qed.

Lemma lstrip_no_lead s : no_lead (lstrip s).
Proof.
  induction s as [|c s IH]; [exact I|]. simpl.
  destruct (is_space c) eqn:E; [exact IH|exact E].
Qed.

Lemma lstrip_of_no_lead s : no_lead s -> lstrip s = s.
Proof. destruct s as [|c s]; [reflexivity|]. simpl. intros ->. reflexivity. Qed.

Lemma rstrip_no_lead s : no_lead s -> no_lead (rstrip s).
Proof.
  destruct s as [|c s]; [intros _; exact I|]. simpl. intros E.
  destruct (rstrip s); [rewrite E|]; exact E.
Qed.

Lemma strip_idem s : strip (strip s) = strip s.
Proof.
  unfold strip.
  rewrite (lstrip_of_no_lead (rstrip (lstrip s))).
  - apply rstrip_idem.
  - apply rstrip_no_lead, lstrip_no_lead.
Qed.

Lemma digit_not_space c : is_digit c = true -> is_space c = false.
Proof.
  destruct c as [[] [] [] [] [] [] [] []]; vm_compute; congruence.
Qed.

Lemma rstrip_digits s :
  SchemaTransformer.str_filter is_digit s = s -> rstrip s = s.
Proof.
  induction s as [|c s IH]; [reflexivity|]. simpl.
  destruct (is_digit c) eqn:E.
  - intros [= H]. rewrite (IH H).
    destruct s; [rewrite (digit_not_space c E)|]; reflexivity.
  - intros H. exfalso.
    assert (Hlen : forall t,
              (String.length (SchemaTransformer.str_filter is_digit t)
               <= String.length t)%nat).
    { induction t as [|x t IHt]; simpl; [lia|].
      destruct (is_digit x); simpl; lia. }
    specialize (Hlen s). rewrite H in Hlen. simpl in Hlen. lia.
Qed.

Lemma strip_plus_digits s :
  SchemaTransformer.str_filter is_digit s = s ->
  strip (String "+" s) = String "+" s.
Proof.
  intros H. unfold strip.
  change (lstrip (String "+" s)) with (String "+" s).
  change (rstrip (String "+" s))
    with (match rstrip s with
          | EmptyString => String "+" EmptyString
          | r => String "+" r
          end).
  rewrite (rstrip_digits s H). destruct s; reflexivity.
Qed.

Lemma lstrip_map (f : ascii -> ascii) s :
  (forall c, is_space (f c) = is_space c) ->
  lstrip (str_map f s) = str_map f (lstrip s).
Proof.
  intros Hf. induction s as [|c s IH]; [reflexivity|]. simpl.
  rewrite Hf. destruct (is_space c); [exact IH|reflexivity].
Qed.

Lemma rstrip_map (f : ascii -> ascii) s :
  (forall c, is_space (f c) = is_space c) ->
  rstrip (str_map f s) = str_map f (rstrip s).
Proof.
  intros Hf. induction s as [|c s IH]; [reflexivity|]. simpl.
  rewrite IH, Hf. destruct (rstrip s); simpl; [|reflexivity].
  destruct (is_space c); reflexivity.
Qed.

Lemma str_map_idem (f : ascii -> ascii) s :
  (forall c, f (f c) = f c) -> str_map f (str_map f s) = str_map f s.
Proof.
  intros Hf. induction s as [|c s IH]; [reflexivity|]. simpl.
  rewrite Hf, IH. reflexivity.
Qed.

Lemma lower_strip_idem s : lower (strip (lower (strip s))) = lower (strip s).
Proof.
  assert (Hsp : forall c,
            is_space (if is_upper c
                      then ascii_of_nat (nat_of_ascii c + 32) else c)
            = is_space c).
  { intros c. destruct c as [[] [] [] [] [] [] [] []]; vm_compute; reflexivity. }
  assert (Hid : forall c,
            (fun c => if is_upper c
                      then ascii_of_nat (nat_of_ascii c + 32) else c)
              (if is_upper c then ascii_of_nat (nat_of_ascii c + 32) else c)
            = (if is_upper c then ascii_of_nat (nat_of_ascii c + 32) else c)).
  { intros c. destruct c as [[] [] [] [] [] [] [] []]; vm_compute; reflexivity. }
  unfold lower, strip.
  rewrite (lstrip_map _ _ Hsp), (rstrip_map _ _ Hsp).
  rewrite (str_map_idem _ _ Hid).
  f_equal. apply strip_idem.
Qed.

End AsciiRuntimeFacts.

Section NormalisersIdempotent.
Import SchemaTransformer.

Lemma str_filter_idem (p : ascii -> bool) s :
  str_filter p (str_filter p s) = str_filter p s.
Proof.
  induction s as [|c s IH]; [reflexivity|]. simpl.
  destruct (p c) eqn:E; [|exact IH]. simpl. rewrite E, IH. reflexivity.
Qed.

Lemma str_contains_nonempty c s : str_contains c s = true -> s <> "".
Proof. destruct s; simpl; congruence. Qed.

(** X6.  Formatting a phone number twice gives what formatting it once
    gives, unless the first result is the empty string (which the second
    pass turns into null).  The runtime is only asked that [str] of a
    string is the string, that [strip] is idempotent and leaves a plus sign
    followed by digits alone, and that ['+'] is no digit while ['1'] is. *)
Theorem format_phone_idempotent (rt : Runtime) (x r : value) :
  (forall s, py_str (VStr s) = s) ->
  (forall s, str_strip (str_strip s) = str_strip s) ->
  (forall s, str_filter str_isdigit s = s ->
     str_strip (String "+" s) = String "+" s) ->
  str_isdigit "+" = false ->
  str_isdigit "1" = true ->
  _format_phone x = ret r ->
  r <> VStr "" ->
  _format_phone r = ret r.
Proof.
  intros Hstr Hidem Hplus Hnd Hone Hx Hne.
  unfold _format_phone in Hx.
  destruct (truthy x); simpl in Hx; [|injection Hx as <-; reflexivity].
  set (phone_str := str_strip (py_str x)) in *.
  set (digits := str_filter str_isdigit phone_str) in *.
  assert (Hd : str_filter str_isdigit digits = digits)
    by apply str_filter_idem.
  destruct (Nat.eqb (String.length digits) 10) eqn:E10.
  - injection Hx as <-. apply Nat.eqb_eq in E10.
    change ("+1" +:+ digits) with (String "+" (String "1" digits)).
    assert (Hd1 : str_filter str_isdigit (String "1" digits) = String "1" digits)
      by (simpl; rewrite Hone, Hd; reflexivity).
    unfold _format_phone. simpl truthy. cbv iota. simpl negb. cbv iota.
    rewrite Hstr, (Hplus _ Hd1).
    change (str_filter str_isdigit (String "+" (String "1" digits)))
      with (if str_isdigit "+"
            then String "+" (str_filter str_isdigit (String "1" digits))
            else str_filter str_isdigit (String "1" digits)).
    rewrite Hnd, Hd1.
    change (String.length (String "1" digits)) with (S (String.length digits)).
    rewrite E10.
    assert (Hp : String.prefix "1" (String "1" digits) = true)
      by (destruct digits; reflexivity).
    rewrite Hp. reflexivity.
  - destruct (Nat.eqb (String.length digits) 11 && String.prefix "1" digits)
      eqn:E11.
    + injection Hx as <-.
      change ("+" +:+ digits) with (String "+" digits).
      unfold _format_phone. simpl truthy. cbv iota. simpl negb. cbv iota.
      rewrite Hstr, (Hplus _ Hd).
      change (str_filter str_isdigit (String "+" digits))
        with (if str_isdigit "+"
              then String "+" (str_filter str_isdigit digits)
              else str_filter str_isdigit digits).
      rewrite Hnd, Hd, E10, E11. reflexivity.
    + injection Hx as <-.
      unfold _format_phone.
      assert (Ht : truthy (VStr phone_str) = true).
      { simpl. destruct (String.eqb phone_str "") eqn:Ee; [|reflexivity].
        apply String.eqb_eq in Ee. rewrite Ee in Hne. contradiction. }
      rewrite Ht. simpl negb. cbv iota zeta.
      rewrite Hstr.
      replace (str_strip phone_str) with phone_str
        by (unfold phone_str; symmetry; apply Hidem).
      fold digits. rewrite E10, E11. reflexivity.
Qed.

Lemma format_phone_idempotent_witness :
  @_format_phone AsciiRuntime.runtime (VStr " (555) 123-4567 ")
    = ret (VStr "+15551234567")
  /\ @_format_phone AsciiRuntime.runtime (VStr "+15551234567")
     = ret (VStr "+15551234567").
Proof.
  assert (H1 : @_format_phone AsciiRuntime.runtime (VStr " (555) 123-4567 ")
               = ret (VStr "+15551234567")) by (vm_compute; reflexivity).
  split; [exact H1|].
  apply (format_phone_idempotent AsciiRuntime.runtime
           (VStr " (555) 123-4567 ") (VStr "+15551234567")).
  - intros s. reflexivity.
  - exact strip_idem.
  - exact strip_plus_digits.
  - reflexivity.
  - reflexivity.
  - exact H1.
  - discriminate.
Defined.

(** X7.  Formatting an e-mail address twice gives what formatting it once
    gives, for every input: the first result is null or a string that the
    second pass accepts unchanged.  The runtime is only asked that [str] of
    a string is the string and that lower-casing a stripped string is
    idempotent. *)
Theorem format_email_idempotent (rt : Runtime) (x r : value) :
  (forall s, py_str (VStr s) = s) ->
  (forall s, str_lower (str_strip (str_lower (str_strip s)))
             = str_lower (str_strip s)) ->
  _format_email x = ret r ->
  _format_email r = ret r.
Proof.
  intros Hstr Hidem Hx. unfold _format_email in Hx.
  destruct (truthy x); simpl in Hx; [|injection Hx as <-; reflexivity].
  set (email_str := str_lower (str_strip (py_str x))) in *.
  destruct (str_contains "@" email_str
            && str_contains "." (split_last "@" email_str)) eqn:E;
    injection Hx as <-; [|reflexivity].
  assert (Hne : email_str <> "").
  { apply andb_true_iff in E as [E _].
    eapply str_contains_nonempty, E. }
  unfold _format_email.
  assert (Ht : truthy (VStr email_str) = true).
  { simpl. destruct (String.eqb email_str "") eqn:Ee; [|reflexivity].
    apply String.eqb_eq in Ee. contradiction. }
  rewrite Ht. simpl negb. cbv iota zeta.
  rewrite Hstr.
  replace (str_lower (str_strip email_str)) with email_str
    by (unfold email_str; symmetry; apply Hidem).
  rewrite E. reflexivity.
Qed.

Lemma format_email_idempotent_witness :
  @_format_email AsciiRuntime.runtime (VStr "  FOO@bar.COM ")
    = ret (VStr "foo@bar.com")
  /\ @_format_email AsciiRuntime.runtime (VStr "foo@bar.com")
     = ret (VStr "foo@bar.com").
Proof.
  assert (H1 : @_format_email AsciiRuntime.runtime (VStr "  FOO@bar.COM ")
               = ret (VStr "foo@bar.com")) by (vm_compute; reflexivity).
  split; [exact H1|].
  apply (format_email_idempotent AsciiRuntime.runtime
           (VStr "  FOO@bar.COM ") (VStr "foo@bar.com")).
  - intros s. reflexivity.
  - exact lower_strip_idem.
  - exact H1.
Defined.

End NormalisersIdempotent.

(* ===================================================================== *)
(** * Further properties of the rate limiter *)
(* ===================================================================== *)

Section TokenBucketMore.
Import Redis.
Import TokenBucket.

Lemma hmget_present (h : gmap string bucket_hash) key b :
  h !! key = Some b -> hmget h key = (Some (tokens b), Some (last_refill b)).
Proof. intros H. unfold hmget. rewrite H. reflexivity. Qed.

Lemma floor_credit (x : Q) : (inject_Z (Qfloor x) <= x)%Q.
Proof. apply Qfloor_le. Qed.

Lemma floor_below_one (x : Q) : (x < 1)%Q -> (inject_Z (Qfloor x) <= 0)%Q.
Proof.
  intros Hx.
  assert (H : (Qfloor x < 1)%Z).
  { rewrite Zlt_Qlt. eapply Qle_lt_trans; [apply Qfloor_le|exact Hx]. }
  change 0%Q with (inject_Z 0). rewrite <- Zle_Qle. lia.
Qed.







Lemma get_status_range self h provider now :
  (refilled self (hmget h (bucket_key self provider)) now
     <= (get_status self h provider now).1)%Q
  /\ ((get_status self h provider now).1 <= inject_Z (capacity self))%Q.
Proof.
  unfold get_status, refilled. cbn [fst]. split.
  - apply Q.min_le_compat_l. apply Qplus_le_r. apply floor_credit.
  - apply Q.le_min_l.
Qed.


(** X11. For a state within bounds and a positive capacity, the token count
    that [get_status] reports lies between 0 and the capacity and the
    utilization between 0 and 1. *)
Theorem status_within_bounds self h provider now :
  (0 <= refill_rate self)%Q ->
  (0 < capacity self)%Z ->
  bucket_ok self (hmget h (bucket_key self provider)) now ->
  let '(current_tokens, utilization) := get_status self h provider now in
  (0 <= current_tokens)%Q /\ (current_tokens <= inject_Z (capacity self))%Q
  /\ (0 <= utilization)%Q /\ (utilization <= 1)%Q.
Proof.
  intros Hrate Hpos Hok.
  destruct (get_status_range self h provider now) as [Hlo Hhi].
  destruct (refilled_bounds self _ now Hrate Hok) as [Hr0 _].
  unfold get_status in *. cbv zeta in *. cbn [fst] in *.
  set (cur := Qmin _ _) in *.
  assert (Hcur : (0 <= cur)%Q) by lra.
  assert (Hc : (0 < inject_Z (capacity self))%Q).
  { change 0%Q with (inject_Z 0). rewrite <- Zlt_Qlt. exact Hpos. }
  split; [exact Hcur|]. split; [exact Hhi|].
  assert (Hd0 : (0 <= cur / inject_Z (capacity self))%Q).
  { apply Qle_shift_div_l; [exact Hc|]. lra. }
  assert (Hd1 : (cur / inject_Z (capacity self) <= 1)%Q).
  { apply Qle_shift_div_r; [exact Hc|]. lra. }
  split; lra.
Qed.

Lemma status_within_bounds_witness :
  let self := {| capacity := 4; refill_rate := 1 # 2; key_prefix := "rate_limit:sf" |} in
  let h : gmap string bucket_hash :=
    {[ "rate_limit:sf:sf" := {| tokens := 1; last_refill := 0 |} ]} in
  let '(current_tokens, utilization) := get_status self h "sf" 3 in
  (0 <= current_tokens)%Q /\ (current_tokens <= inject_Z (capacity self))%Q
  /\ (0 <= utilization)%Q /\ (utilization <= 1)%Q.
Proof.
  intros self h.
  apply (status_within_bounds self h "sf" 3).
  - vm_compute. discriminate.
  - reflexivity.
  - assert (Hh : hmget h (bucket_key self "sf") = (Some 1%Q, Some 0%Q))
      by (vm_compute; reflexivity).
    rewrite Hh. split; [vm_compute; discriminate|]. split.
    + intros t [= <-]. split; vm_compute; discriminate.
    + intros l [= <-]. vm_compute; discriminate.
Defined.



End TokenBucketMore.

Section RateLimiterManagerMore.
Import Redis.
Import RateLimiterManager.

(** X13. Once a provider's limiter is removed, every request for it is let
    through without touching the bucket hashes, its status is gone, and the
    limiters of the other providers are as before. *)
Theorem removed_provider_is_not_limited (self : t) (provider : string) :
  (forall h tokens now,
     can_make_request (remove_provider self provider) h provider tokens now
       = (true, h))
  /\ (forall h now,
        get_provider_status (remove_provider self provider) h provider now = None)
  /\ (forall other,
        other <> provider ->
        limiters (remove_provider self provider) !! other
          = limiters self !! other).
Proof.
  split; [|split].
  - intros h tokens now. unfold can_make_request, remove_provider.
    cbn [limiters]. rewrite lookup_delete_eq. reflexivity.
  - intros h now. unfold get_provider_status, remove_provider.
    cbn [limiters]. rewrite lookup_delete_eq. reflexivity.
  - intros other Hne. unfold remove_provider. cbn [limiters].
    apply lookup_delete_ne. congruence.
Qed.

(** X14. [wait_for_capacity] on a provider whose refill rate is zero and
    whose bucket holds fewer tokens than asked does not wait until the
    timeout: its first poll is denied and the computation of the sleep
    (a division by the refill rate) raises. *)
Theorem wait_for_capacity_zero_rate_raises (self : t) h provider limiter b
    tokens timeout start_time t_test t_poll turns :
  limiters self !! provider = Some limiter ->
  (TokenBucket.refill_rate limiter == 0)%Q ->
  h !! TokenBucket.bucket_key limiter provider = Some b ->
  (Redis.tokens b < inject_Z tokens)%Q ->
  (t_test - start_time < timeout)%Q ->
  exists e h',
    wait_for_capacity self h provider tokens timeout start_time
      ((t_test, t_poll) :: turns)
    = Some (inl e, h').
Proof.
  intros Hlim Hzero Hb Hlow Htest.
  cbn [wait_for_capacity].
  assert (Hgo : Qle_bool timeout (t_test - start_time) = false).
  { destruct (Qle_bool timeout (t_test - start_time)) eqn:E; [|reflexivity].
    apply Qle_bool_iff in E. lra. }
  rewrite Hgo. cbn [negb].
  unfold can_make_request. rewrite Hlim.
  pose proof (consume_effect limiter h provider tokens t_poll) as Heff.
  cbv zeta in Heff. rewrite (hmget_present _ _ _ Hb) in Heff.
  destruct (TokenBucket.consume limiter h provider tokens t_poll) as [ok h1].
  destruct Heff as (Hiff & _).
  assert (Hden : ok = false).
  { destruct ok; [|reflexivity]. exfalso.
    assert (Hle : (inject_Z tokens
                   <= TokenBucket.refilled limiter
                        (Some (Redis.tokens b), Some (last_refill b)) t_poll)%Q)
      by (apply Hiff; reflexivity).
    unfold TokenBucket.refilled in Hle. cbn [fst snd default from_option Datatypes.id] in Hle.
    assert (Hmin : (Qmin (inject_Z (TokenBucket.capacity limiter))
                      (Redis.tokens b
                       + inject_Z (Qfloor ((t_poll - last_refill b)
                                           * TokenBucket.refill_rate limiter)))
                    <= Redis.tokens b + inject_Z (Qfloor ((t_poll - last_refill b)
                                           * TokenBucket.refill_rate limiter)))%Q)
      by apply Q.le_min_r.
    assert (Hf : (inject_Z (Qfloor ((t_poll - last_refill b)
                                     * TokenBucket.refill_rate limiter)) <= 0)%Q).
    { apply floor_below_one. rewrite Hzero.
      setoid_replace ((t_poll - last_refill b) * 0)%Q with 0%Q using relation Qeq by ring.
      reflexivity. }
    lra. }
  subst ok. unfold wait_time. rewrite Hlim.
  assert (Hz : Qeq_bool (TokenBucket.refill_rate limiter) 0 = true)
    by (apply Qeq_bool_iff; exact Hzero).
  rewrite Hz. eexists. exists h1. reflexivity.
Qed.

Lemma wait_for_capacity_zero_rate_raises_witness :
  let self := add_provider __init__ "sf" 0 1 in
  let h : gmap string bucket_hash :=
    {[ "rate_limit:sf:sf" := {| tokens := 0; last_refill := 0 |} ]} in
  exists e h',
    wait_for_capacity self h "sf" 1 30 0 [(0%Q, 0%Q)] = Some (inl e, h').
Proof.
  intros self h.
  apply (wait_for_capacity_zero_rate_raises self h "sf"
           {| TokenBucket.capacity := 1;
              TokenBucket.refill_rate := (inject_Z 0 / 60)%Q;
              TokenBucket.key_prefix := "rate_limit:sf" |}
           {| tokens := 0; last_refill := 0 |} 1 30 0 0 0 []).
  - vm_compute. reflexivity.
  - vm_compute. reflexivity.
  - vm_compute. reflexivity.
  - vm_compute. reflexivity.
  - vm_compute. reflexivity.
Defined.

(** X15. [wait_for_capacity] gives up (answers [False]) only on a turn
    whose loop test found the timeout elapsed. *)
Theorem wait_for_capacity_gives_up_only_after_timeout (self : t) provider
    tokens timeout start_time turns :
  forall h h',
    wait_for_capacity self h provider tokens timeout start_time turns
      = Some (ret false, h') ->
    exists turn, turn ∈ turns /\ (timeout <= turn.1 - start_time)%Q.
Proof.
  induction turns as [|[t_test t_poll] turns IH]; intros h h' Hw.
  - discriminate Hw.
  - cbn [wait_for_capacity] in Hw.
    destruct (Qle_bool timeout (t_test - start_time)) eqn:E; cbn [negb] in Hw.
    + exists (t_test, t_poll). split; [apply list_elem_of_here|].
      apply Qle_bool_iff. exact E.
    + destruct (can_make_request self h provider tokens t_poll) as [ok h1].
      destruct ok; [discriminate Hw|].
      destruct (wait_time self provider tokens) as [e|q]; [discriminate Hw|].
      destruct (IH _ _ Hw) as (turn & Hin & Hle).
      exists turn. split; [apply list_elem_of_further; exact Hin|exact Hle].
Qed.

Lemma wait_for_capacity_gives_up_only_after_timeout_witness :
  exists turn, turn ∈ [(0%Q, 0%Q); (31%Q, 31%Q)] /\ (30 <= turn.1 - 0)%Q.
Proof.
  apply (wait_for_capacity_gives_up_only_after_timeout
           (add_provider __init__ "sf" 6 1) "sf" 2 30 0 [(0%Q, 0%Q); (31%Q, 31%Q)]
           ∅ {[ "rate_limit:sf:sf" := {| tokens := 1; last_refill := 0 |} ]}).
  vm_compute. reflexivity.
Defined.

End RateLimiterManagerMore.

(* ===================================================================== *)
(** * Further properties of the engine *)
(* ===================================================================== *)

Section SortedSetFacts.
Import Redis.
Context {M : Type} `{EqDecision M}.

Lemma zinsert_elem_inv (m : M) (s : Z) (z : zset M) p :
  p ∈ zinsert m s z -> p = (m, s) \/ p ∈ z.
Proof.
  induction z as [|[m' s'] z IH]; simpl.
  - intros Hp. apply list_elem_of_singleton in Hp. left. exact Hp.
  - destruct (Z.ltb s s').
    + intros Hp. apply elem_of_cons in Hp. exact Hp.
    + intros Hp. apply elem_of_cons in Hp as [->|Hp].
      * right. apply list_elem_of_here.
      * destruct (IH Hp) as [->|Hin]; [left; reflexivity|].
        right. apply list_elem_of_further, Hin.
Qed.

Lemma zrem_subset (z : zset M) (m : M) p : p ∈ zrem z m -> p ∈ z.
Proof. unfold zrem. intros Hp. apply list_elem_of_filter in Hp as [_ Hp]. exact Hp. Qed.

Lemma zadd_elem_inv (z : zset M) (m : M) (s : Z) p :
  p ∈ zadd z m s -> p = (m, s) \/ p ∈ z.
Proof.
  unfold zadd. intros Hp.
  destruct (zinsert_elem_inv _ _ _ _ Hp) as [->|Hin]; [left; reflexivity|].
  right. eapply zrem_subset, Hin.
Qed.

Lemma zrange_elem (z : zset M) (m : M) :
  m ∈ zrange z <-> exists s, (m, s) ∈ z.
Proof.
  unfold zrange. rewrite list_elem_of_fmap. split.
  - intros ([m' s] & -> & Hin). exists s. exact Hin.
  - intros (s & Hin). exists (m, s). split; [reflexivity|exact Hin].
Qed.

Lemma zrem_zinsert_same (m : M) (s : Z) (z : zset M) :
  zrem (zinsert m s z) m = zrem z m.
Proof.
  unfold zrem, zset. induction z as [|[m' s'] z IH]; cbn [zinsert].
  - rewrite filter_cons_False by (simpl; intros Hne; apply Hne; reflexivity).
    reflexivity.
  - destruct (Z.ltb s s').
    + rewrite (filter_cons_False _ (m, s))
        by (simpl; intros Hne; apply Hne; reflexivity).
      reflexivity.
    + destruct (decide (m' <> m)) as [Hne|Heq].
      * rewrite !(filter_cons_True _ (m', s')) by exact Hne.
        f_equal. exact IH.
      * rewrite !(filter_cons_False _ (m', s')) by exact Heq. exact IH.
Qed.

Lemma zrem_idem (z : zset M) (m : M) : zrem (zrem z m) m = zrem z m.
Proof.
  unfold zrem, zset. induction z as [|[m' s'] z IH]; [reflexivity|].
  destruct (decide (m' <> m)) as [Hne|Heq].
  - rewrite (filter_cons_True _ (m', s')) by exact Hne.
    rewrite (filter_cons_True _ (m', s')) by exact Hne.
    f_equal. exact IH.
  - rewrite (filter_cons_False _ (m', s')) by exact Heq. exact IH.
Qed.

Lemma zrem_zadd_same (z : zset M) (m : M) (s : Z) :
  zrem (zadd z m s) m = zrem z m.
Proof. unfold zadd. rewrite zrem_zinsert_same, zrem_idem. reflexivity. Qed.






End SortedSetFacts.

Section EngineMore.
Import Redis.
Import ExternalAPIClient.
Import SyncEngine.

Lemma scan_queues_none operation_id qs :
  scan_queues operation_id qs = None
  <-> forall q items data,
        (q, items) ∈ qs -> data ∈ items -> d_id data <> operation_id.
Proof.
  induction qs as [|[q items] qs IH]; simpl.
  - split; [|reflexivity]. intros _ q items data Hin. inversion Hin.
  - destruct (List.find _ items) as [y|] eqn:E.
    + split; [discriminate|]. intros Hall. exfalso.
      apply find_some in E as [Hin Hy].
      apply (Hall q items y); [apply list_elem_of_here| |apply String.eqb_eq, Hy].
      apply list_elem_of_In, Hin.
    + rewrite IH. split.
      * intros Hall q' items' data Hq Hd.
        apply elem_of_cons in Hq as [[= -> ->]|Hq]; [|eapply Hall; eassumption].
        apply String.eqb_neq.
        apply (find_none _ _ E). apply list_elem_of_In, Hd.
      * intros Hall q' items' data Hq Hd.
        apply (Hall q' items'); [apply list_elem_of_further, Hq|exact Hd].
Qed.

Lemma scan_queues_some operation_id qs r :
  scan_queues operation_id qs = Some r ->
  exists q items data,
    (q, items) ∈ qs /\ data ∈ items /\ d_id data = operation_id
    /\ r = _deserialize_sync_result data q.
Proof.
  induction qs as [|[q items] qs IH]; simpl; [discriminate|].
  destruct (List.find _ items) as [y|] eqn:E.
  - intros [= <-]. apply find_some in E as [Hin Hy].
    exists q, items, y. split; [apply list_elem_of_here|].
    split; [apply list_elem_of_In, Hin|]. split; [apply String.eqb_eq, Hy|reflexivity].
  - intros Hr. destruct (IH Hr) as (q' & items' & data & Hq & Hd & Hid & ->).
    exists q', items', data. split; [apply list_elem_of_further, Hq|].
    split; [exact Hd|]. split; [exact Hid|reflexivity].
Qed.





(** X18. The status query answers [None] exactly when no entry of the five
    tiers carries the id, and any result it gives carries the id asked
    for. *)
Theorem status_query_finds_every_stored_id
    (self : SyncEngine.t) (operation_id : string) :
  (get_operation_status self operation_id = None
   <-> entries_with_id (redis self) operation_id = [])
  /\ (forall res,
        get_operation_status self operation_id = Some res ->
        Models.operation_id res = operation_id).
Proof.
  split.
  - unfold get_operation_status. rewrite scan_queues_none.
    unfold entries_with_id, queues, lrange. split.
    + intros Hall.
      destruct (List.filter _ _) as [|x l] eqn:E; [reflexivity|exfalso].
      assert (Hx : In x (List.filter
                (fun data => String.eqb (d_id data) operation_id)
                (zrange (pending (redis self)) ++ zrange (processing (redis self))
                 ++ completed (redis self) ++ failed (redis self)
                 ++ dlq (redis self)))) by (rewrite E; left; reflexivity).
      apply filter_In in Hx as [Hin Hid]. apply String.eqb_eq in Hid.
      rewrite !in_app_iff in Hin. rewrite <- !list_elem_of_In in Hin.
      destruct Hin as [Hin|[Hin|[Hin|[Hin|Hin]]]].
      * refine (Hall PENDING_QUEUE _ x _ Hin Hid).
        apply list_elem_of_here.
      * refine (Hall PROCESSING_QUEUE _ x _ Hin Hid).
        apply list_elem_of_further, list_elem_of_here.
      * refine (Hall COMPLETED_QUEUE _ x _ Hin Hid).
        do 2 apply list_elem_of_further. apply list_elem_of_here.
      * refine (Hall FAILED_QUEUE _ x _ Hin Hid).
        do 3 apply list_elem_of_further. apply list_elem_of_here.
      * refine (Hall DLQ _ x _ Hin Hid).
        do 4 apply list_elem_of_further. apply list_elem_of_here.
    + intros Hnil q items data Hq Hd Hid.
      assert (Hx : In data (List.filter
                (fun data => String.eqb (d_id data) operation_id)
                (zrange (pending (redis self)) ++ zrange (processing (redis self))
                 ++ completed (redis self) ++ failed (redis self)
                 ++ dlq (redis self)))).
      { apply filter_In. split; [|apply String.eqb_eq, Hid].
        rewrite !in_app_iff. rewrite <- !list_elem_of_In.
        repeat (apply elem_of_cons in Hq as [Hq|Hq];
          [injection Hq as -> ->; tauto|]).
        inversion Hq. }
      rewrite Hnil in Hx. destruct Hx.
  - intros res Hres. unfold get_operation_status in Hres.
    destruct (scan_queues_some _ _ _ Hres) as (q & items & data & _ & _ & Hid & ->).
    exact Hid.
Qed.

(** The store after one worker iteration that pops an entry, in every
    branch of the iteration. *)
Lemma worker_body_cases (self : SyncEngine.t) (w : World) (c : Clock)
    (operation_data : OpDict) (priority : Z) (rest : zset OpDict) :
  pending (redis self) = (operation_data, priority) :: rest ->
  let s := redis self in
  let s' := redis (_worker_loop_body self w c) in
  let retry_count := default 0%nat (d_retry_count operation_data) in
  processing s' = zrem (processing s) operation_data
  /\ failed s' = failed s
  /\ ((pending s' = zadd rest operation_data (d_priority operation_data)
       /\ completed s' = operation_data :: completed s /\ dlq s' = dlq s)
      \/ (pending s' = rest
          /\ completed s' = operation_data :: completed s /\ dlq s' = dlq s)
      \/ (exists entry,
            d_id entry = d_id operation_data
            /\ d_retry_count entry = Some (retry_count + 1)%nat
            /\ (retry_count < max_retries)%nat
            /\ pending s' = zadd rest entry priority
            /\ completed s' = completed s /\ dlq s' = dlq s)
      \/ ((max_retries <= retry_count)%nat
          /\ pending s' = rest
          /\ completed s' = completed s
          /\ dlq s' = operation_data :: dlq s)).
Proof.
  intros Hpending s s' retry_count.
  unfold s', _worker_loop_body. rewrite Hpending. cbn [bzpopmin].
  unfold _process_operation.
  destruct (scheduled_in_future c operation_data) eqn:Hgate.
  - split; [apply zrem_zadd_same|].
    split; [reflexivity|]. left. repeat split; reflexivity.
  - rewrite dispatch_tiers by reflexivity.
    destruct (dispatch self w c operation_data) as [[[e|response] d'] h] eqn:Hdisp.
    + destruct (dispatch_preserves _ _ _ _ _ _ _ Hdisp)
        as (Hid & _ & _ & _ & _ & _ & _ & _ & Hrc & _).
      cbn [d_retry_count set_error_message]. rewrite Hrc. fold retry_count.
      destruct (Nat.ltb retry_count max_retries) eqn:Hlt.
      * split; [apply zrem_zadd_same|].
        split; [reflexivity|]. right. right. left.
        eexists. split; [|split; [|split; [|split; [reflexivity|split; reflexivity]]]].
        -- exact Hid.
        -- reflexivity.
        -- apply Nat.ltb_lt, Hlt.
      * split; [apply zrem_zadd_same|].
        split; [reflexivity|]. right. right. right.
        split; [apply Nat.ltb_ge, Hlt|]. repeat split; reflexivity.
    + split; [apply zrem_zadd_same|].
      split; [reflexivity|]. right. left. repeat split; reflexivity.
Qed.

Lemma worker_body_idle (self : SyncEngine.t) (w : World) (c : Clock) :
  pending (redis self) = [] -> _worker_loop_body self w c = self.
Proof. intros Hp. unfold _worker_loop_body. rewrite Hp. reflexivity. Qed.

(** X19. One worker iteration never loses the operation it pops: whatever
    the dispatch does, afterwards the popped entry is out of the in-flight
    tier and an entry with its id is in the pending, the completed or the
    dead-letter tier. *)
Theorem popped_operation_is_not_lost (self : SyncEngine.t) (w : World)
    (c : Clock) (operation_data : OpDict) (priority : Z) (rest : zset OpDict) :
  pending (redis self) = (operation_data, priority) :: rest ->
  let s' := redis (_worker_loop_body self w c) in
  (operation_data ∉ zrange (processing s'))
  /\ exists entry,
       d_id entry = d_id operation_data
       /\ (entry ∈ zrange (pending s') \/ entry ∈ completed s' \/ entry ∈ dlq s').
Proof.
  intros Hpending s'.
  destruct (worker_body_cases self w c _ _ _ Hpending)
    as (Hproc & _ & Hcases). fold s' in Hproc, Hcases.
  split; [rewrite Hproc; apply zrem_absent|].
  destruct Hcases as [(_ & Hc & _)|[(_ & Hc & _)|[(entry & Hid & _ & _ & Hp & _)|(_ & _ & _ & Hd)]]].
  - exists operation_data. split; [reflexivity|]. right. left.
    rewrite Hc. apply list_elem_of_here.
  - exists operation_data. split; [reflexivity|]. right. left.
    rewrite Hc. apply list_elem_of_here.
  - exists entry. split; [exact Hid|]. left. rewrite Hp.
    apply zrange_elem. eexists. apply zadd_elem.
  - exists operation_data. split; [reflexivity|]. right. right.
    rewrite Hd. apply list_elem_of_here.
Qed.

Lemma popped_operation_is_not_lost_witness :
  let self := (submit_operation Examples.engine Examples.read_op 0).2 in
  let s' := redis (_worker_loop_body self Examples.world_ok (Examples.clock_at 0)) in
  exists entry,
    d_id entry = "op-2"
    /\ (entry ∈ zrange (pending s') \/ entry ∈ completed s' \/ entry ∈ dlq s').
Proof.
  intros self s'.
  exact (proj2 (popped_operation_is_not_lost self Examples.world_ok
                  (Examples.clock_at 0) (operation_data_of Examples.read_op)
                  5 [] eq_refl)).
Defined.

(** X20. No worker iteration and no submission writes the failed tier: over
    any run of the worker it stays as it was. *)
Theorem failed_tier_is_never_written (run : list (World * Clock)) :
  forall self : SyncEngine.t,
    failed (redis (_worker_loop self run)) = failed (redis self)
    /\ forall operation now,
         failed (redis (submit_operation self operation now).2)
         = failed (redis self).
Proof.
  induction run as [|[w c] run IH]; intros self.
  - split; [reflexivity|]. intros operation now. unfold submit_operation.
    destruct (providers self !! provider operation); reflexivity.
  - split.
    + cbn [_worker_loop].
      rewrite (proj1 (IH (_worker_loop_body self w c))).
      destruct (pending (redis self)) as [|[operation_data priority] rest] eqn:Hp.
      * rewrite (worker_body_idle _ _ _ Hp). reflexivity.
      * destruct (worker_body_cases self w c _ _ _ Hp) as (_ & Hf & _).
        exact Hf.
    + intros operation now. unfold submit_operation.
      destruct (providers self !! provider operation); reflexivity.
Qed.

(** X21. If no pending entry has been retried more than three times, then
    this stays so over any run of the worker: the retry counter never
    exceeds [max_retries]. *)
Theorem retry_count_never_exceeds_max (run : list (World * Clock)) :
  forall self : SyncEngine.t,
    retries_bounded (redis self) ->
    retries_bounded (redis (_worker_loop self run)).
Proof.
  induction run as [|[w c] run IH]; intros self Hb; [exact Hb|].
  cbn [_worker_loop]. apply IH.
  destruct (pending (redis self)) as [|[operation_data priority] rest] eqn:Hp.
  - rewrite (worker_body_idle _ _ _ Hp). exact Hb.
  - assert (Hrest : forall data, data ∈ zrange rest ->
              (default 0%nat (d_retry_count data) <= max_retries)%nat).
    { intros data Hd. apply Hb. rewrite Hp. unfold zrange in *.
      rewrite fmap_cons. apply list_elem_of_further, Hd. }
    assert (Hop : (default 0%nat (d_retry_count operation_data) <= max_retries)%nat).
    { apply Hb. rewrite Hp. unfold zrange. rewrite fmap_cons.
      apply list_elem_of_here. }
    destruct (worker_body_cases self w c _ _ _ Hp) as (_ & _ & Hcases).
    intros data Hd.
    destruct Hcases as [(Hq & _)|[(Hq & _)|[(entry & _ & Hrc & Hlt & Hq & _)|(_ & Hq & _)]]];
      rewrite Hq in Hd.
    + apply zrange_elem in Hd as (sc & Hd).
      destruct (zadd_elem_inv _ _ _ _ Hd) as [[= -> _]|Hin]; [exact Hop|].
      apply Hrest. apply zrange_elem. exists sc. exact Hin.
    + apply Hrest, Hd.
    + apply zrange_elem in Hd as (sc & Hd).
      destruct (zadd_elem_inv _ _ _ _ Hd) as [[= -> _]|Hin].
      * rewrite Hrc. cbn. lia.
      * apply Hrest. apply zrange_elem. exists sc. exact Hin.
    + apply Hrest, Hd.
Qed.

Lemma retry_count_never_exceeds_max_witness :
  retries_bounded
    (redis (_worker_loop (submit_operation Examples.engine Examples.read_op 0).2
              [(Examples.world_ok, Examples.clock_at 0);
               (Examples.world_ok, Examples.clock_at 2000000)])).
Proof.
  apply (retry_count_never_exceeds_max
           [(Examples.world_ok, Examples.clock_at 0);
            (Examples.world_ok, Examples.clock_at 2000000)]
           (submit_operation Examples.engine Examples.read_op 0).2).
  intros data Hd. vm_compute in Hd.
  apply list_elem_of_singleton in Hd. subst data. vm_compute. lia.
Defined.



(** X23. While the hourly counters are not negative, the error rate that
    [get_queue_metrics] reports lies between 0 and 100, and it is 0 when
    nothing failed in the hour. *)
Theorem error_rate_is_a_percentage (self : SyncEngine.t) (now : datetime) :
  0 <= get_int (metrics (redis self)) (current_hour now, "operations_completed") ->
  0 <= get_int (metrics (redis self)) (current_hour now, "operations_failed") ->
  (0 <= error_rate_percentage (get_queue_metrics self now))%Q
  /\ (error_rate_percentage (get_queue_metrics self now) <= 100)%Q
  /\ (get_int (metrics (redis self)) (current_hour now, "operations_failed") = 0 ->
      (error_rate_percentage (get_queue_metrics self now) == 0)%Q).
Proof.
  intros Hc Hf. unfold get_queue_metrics. cbn [error_rate_percentage].
  set (cn := get_int (metrics (redis self)) (current_hour now, "operations_completed")) in *.
  set (fl := get_int (metrics (redis self)) (current_hour now, "operations_failed")) in *.
  destruct (Z.ltb 0 (cn + fl)) eqn:E.
  - apply Z.ltb_lt in E.
    assert (Ht : (0 < inject_Z (cn + fl))%Q).
    { change 0%Q with (inject_Z 0). rewrite <- Zlt_Qlt. exact E. }
    assert (Hfq : (0 <= inject_Z fl)%Q).
    { change 0%Q with (inject_Z 0). rewrite <- Zle_Qle. exact Hf. }
    assert (Hle : (inject_Z fl <= inject_Z (cn + fl))%Q).
    { rewrite <- Zle_Qle. lia. }
    assert (H0 : (0 <= inject_Z fl / inject_Z (cn + fl))%Q).
    { apply Qle_shift_div_l; [exact Ht|]. lra. }
    assert (H1 : (inject_Z fl / inject_Z (cn + fl) <= 1)%Q).
    { apply Qle_shift_div_r; [exact Ht|]. lra. }
    split; [lra|]. split; [lra|].
    intros Hz. rewrite Hz. unfold Qdiv. change (inject_Z 0) with 0%Q. ring.
  - split; [apply Qle_refl|]. split; [discriminate|]. intros _. reflexivity.
Qed.

Lemma error_rate_is_a_percentage_witness :
  let self :=
    _worker_loop (submit_operation Examples.engine (Examples.create_op None) 0).2
      [(Examples.world_ok, Examples.clock_at 0)] in
  let m := get_queue_metrics self 0 in
  (error_rate_percentage m <= 100)%Q.
Proof.
  intros self m.
  refine (proj1 (proj2 (error_rate_is_a_percentage self 0 _ _))).
  - vm_compute. discriminate.
  - vm_compute. discriminate.
Defined.

End EngineMore.

Section DispatchMore.
Import Redis.
Import ExternalAPIClient.
Import SyncEngine.

Lemma with_buckets_same (s : Store) : with_buckets s (buckets s) = s.
Proof. destruct s; reflexivity. Qed.

(** X24. Once a provider is removed, new submissions for it are rejected,
    and an operation for it that is still queued fails whatever the world
    answers, with the message
    [Unexpected error: Provider not configured: <name>]; it is not marked
    as started and the store is as before. *)
Theorem removed_provider_fails_queued_operations
    (self : SyncEngine.t) (provider_name : string) (w : World) (c : Clock)
    (operation_dict : OpDict) :
  is_Some (providers self !! provider_name) ->
  d_provider operation_dict = provider_name ->
  scheduled_in_future c operation_dict = false ->
  let self' := remove_provider self provider_name in
  (let '(success, operation_dict', self'') :=
     _process_operation self' w c operation_dict in
   success = false
   /\ operation_dict'
      = set_error_message operation_dict
          ("Unexpected error: Provider not configured: " +:+ provider_name)
   /\ redis self'' = redis self)
  /\ forall operation now,
       provider operation = provider_name ->
       submit_operation self' operation now
       = (raise ValueError ("Unknown provider: " +:+ provider_name), self').
Proof.
  intros [cfg Hcfg] Hprov Hgate self'.
  assert (Hgone : providers self' !! provider_name = None).
  { unfold self', remove_provider. rewrite Hcfg. cbn [providers].
    apply lookup_delete_eq. }
  assert (Hredis : redis self' = redis self).
  { unfold self', remove_provider. rewrite Hcfg. reflexivity. }
  split.
  - unfold _process_operation. rewrite Hgate. unfold dispatch.
    rewrite Hprov, Hgone. cbn [error_message_of].
    split; [reflexivity|]. split; [reflexivity|].
    cbn [redis with_redis]. rewrite with_buckets_same. exact Hredis.
  - intros operation now Hop. unfold submit_operation.
    rewrite Hop, Hgone. reflexivity.
Qed.

Lemma removed_provider_fails_queued_operations_witness :
  let self' := remove_provider Examples.engine "sf" in
  submit_operation self' (Examples.create_op None) 0
  = (raise ValueError "Unknown provider: sf", self').
Proof.
  intros self'.
  refine (proj2 (removed_provider_fails_queued_operations Examples.engine "sf"
                   Examples.world_ok (Examples.clock_at 0)
                   (operation_data_of (Examples.create_op None)) _ _ _)
            (Examples.create_op None) 0 _).
  - eexists. vm_compute. reflexivity.
  - reflexivity.
  - reflexivity.
  - reflexivity.
Defined.

(** X25. A CREATE or UPDATE whose record lacks the internal field of one of
    the provider's default mappings fails before anything is sent: whatever
    the world answers, the attempt fails with an
    [Unexpected error: ...] message, and no token is taken from the
    provider's bucket. *)
Theorem incomplete_record_fails_before_any_request
    (self : SyncEngine.t) (w : World) (c : Clock) (operation_dict : OpDict)
    (provider_config : ProviderConfig) (record_data : RecordData)
    (m : SchemaMapping) :
  providers self !! d_provider operation_dict = Some provider_config ->
  __aenter__
    {| config := provider_config;
       ExternalAPIClient.rate_limiter := rate_limiter self;
       ExternalAPIClient.schema_transformer := schema_transformer self |} w
    = None ->
  scheduled_in_future c operation_dict = false ->
  d_operation operation_dict = CREATE
  \/ (d_operation operation_dict = UPDATE
      /\ is_Some (kw_record_id (kwargs_of operation_dict))) ->
  d_record_data operation_dict = Some record_data ->
  m ∈ SchemaTransformer.get_default_mappings
        (provider_type_value (provider_type provider_config)) ->
  dict_get (data record_data) (internal_field m) = VNone ->
  let '(success, operation_dict', self') :=
    _process_operation self w c operation_dict in
  success = false
  /\ (exists msg,
        d_error_message operation_dict' = Some ("Unexpected error: " +:+ msg))
  /\ redis self' = redis self.
Proof.
  intros Hcfg Hauth Hgate Hop Hrd Hm Hsrc.
  destruct (transform_loop_missing_required (schema_transformer self)
              (data record_data) "internal_to_external" _ m Hm
              (default_mappings_required _ _ Hm) Hsrc ∅) as [msg Hraise].
  unfold _process_operation. rewrite Hgate. unfold dispatch. rewrite Hcfg.
  rewrite Hauth. cbn [d_operation set_started_at].
  assert (Hkw : kw_record_data (kwargs_of (set_started_at operation_dict (now_started c)))
                = Some record_data) by exact Hrd.
  assert (Hrid : kw_record_id (kwargs_of (set_started_at operation_dict (now_started c)))
                 = kw_record_id (kwargs_of operation_dict)) by reflexivity.
  unfold execute_operation.
  destruct Hop as [Hop|[Hop [rid Hsome]]]; rewrite Hop.
  - rewrite Hkw. cbn [kwargs_item ret]. unfold create_record.
    cbn [config ExternalAPIClient.schema_transformer].
    unfold SchemaTransformer.transform_record. rewrite Hraise.
    split; [reflexivity|]. split; [eexists; reflexivity|].
    cbn [redis with_redis]. apply with_buckets_same.
  - rewrite Hrid, Hsome, Hkw. cbn [kwargs_item ret]. unfold update_record.
    cbn [config ExternalAPIClient.schema_transformer].
    unfold SchemaTransformer.transform_record. rewrite Hraise.
    split; [reflexivity|]. split; [eexists; reflexivity|].
    cbn [redis with_redis]. apply with_buckets_same.
Qed.

Lemma incomplete_record_fails_before_any_request_witness :
  let operation :=
    {| id := "op-3"; operation := CREATE; provider := "sf";
       record_id := None;
       record_data := Some (RecordData_new {[ "last_name" := VStr "B" ]});
       priority := 5; created_at := 0; scheduled_at := None |} in
  let '(success, operation_dict', self') :=
    _process_operation Examples.engine Examples.world_ok (Examples.clock_at 0)
      (operation_data_of operation) in
  success = false
  /\ (exists msg,
        d_error_message operation_dict' = Some ("Unexpected error: " +:+ msg))
  /\ redis self' = redis Examples.engine.
Proof.
  intros operation.
  apply (incomplete_record_fails_before_any_request Examples.engine
           Examples.world_ok (Examples.clock_at 0) (operation_data_of operation)
           Examples.sf_config (RecordData_new {[ "last_name" := VStr "B" ]})
           (SchemaMapping_new "first_name" "FirstName" None None)).
  - vm_compute. reflexivity.
  - vm_compute. reflexivity.
  - reflexivity.
  - left. reflexivity.
  - reflexivity.
  - apply list_elem_of_here.
  - vm_compute. reflexivity.
Defined.

(** X26. For a provider configured with an authentication type other than
    [oauth2], [api_key] and [basic], every attempt fails on entering the
    client with [Unsupported auth type: <type>], whatever the operation and
    whatever the world answers; the operation is marked as started and no
    token is taken. *)
Theorem unsupported_auth_type_fails_every_attempt
    (self : SyncEngine.t) (w : World) (c : Clock) (operation_dict : OpDict)
    (provider_config : ProviderConfig) :
  providers self !! d_provider operation_dict = Some provider_config ->
  auth_type (auth_config provider_config) <> "oauth2" ->
  auth_type (auth_config provider_config) <> "api_key" ->
  auth_type (auth_config provider_config) <> "basic" ->
  scheduled_in_future c operation_dict = false ->
  let '(success, operation_dict', self') :=
    _process_operation self w c operation_dict in
  success = false
  /\ operation_dict'
     = set_error_message (set_started_at operation_dict (now_started c))
         ("Unsupported auth type: " +:+ auth_type (auth_config provider_config))
  /\ redis self' = redis self.
Proof.
  intros Hcfg H1 H2 H3 Hgate.
  unfold _process_operation. rewrite Hgate. unfold dispatch. rewrite Hcfg.
  unfold __aenter__, _authenticate. cbn [config].
  apply String.eqb_neq in H1, H2, H3. rewrite H1, H2, H3.
  split; [reflexivity|]. split; [reflexivity|].
  cbn [redis with_redis]. apply with_buckets_same.
Qed.

Lemma unsupported_auth_type_fails_every_attempt_witness :
  let config :=
    {| name := "tok"; provider_type := CUSTOM;
       base_url := "https://api.custom.test";
       rate_limit_per_minute := 60; burst_limit := 1;
       timeout_seconds := 30; Models.max_retries := 3;
       auth_config :=
         {| auth_type := "token"; credentials := ∅;
            token_url := None; refresh_token := None |} |} in
  let self := add_provider Examples.engine config in
  let operation_dict :=
    operation_data_of
      {| id := "op-4"; operation := READ; provider := "tok";
         record_id := Some "r1"; record_data := None;
         priority := 5; created_at := 0; scheduled_at := None |} in
  let '(success, operation_dict', self') :=
    _process_operation self Examples.world_ok (Examples.clock_at 0)
      operation_dict in
  success = false
  /\ operation_dict'
     = set_error_message (set_started_at operation_dict 0)
         "Unsupported auth type: token"
  /\ redis self' = redis self.
Proof.
  intros config self operation_dict.
  apply (unsupported_auth_type_fails_every_attempt self Examples.world_ok
           (Examples.clock_at 0) operation_dict config).
  - vm_compute. reflexivity.
  - discriminate.
  - discriminate.
  - discriminate.
  - reflexivity.
Defined.

(** X27. A READ or DELETE that the provider's bucket turns down fails with
    [Rate limit exceeded for provider <name>] without any exchange with
    the provider; the bucket is left as the denied poll wrote it. *)
Theorem rate_limited_attempt_sends_nothing
    (self : SyncEngine.t) (w : World) (c : Clock) (operation_dict : OpDict)
    (provider_config : ProviderConfig) (h' : gmap string bucket_hash) :
  providers self !! d_provider operation_dict = Some provider_config ->
  __aenter__
    {| config := provider_config;
       ExternalAPIClient.rate_limiter := rate_limiter self;
       ExternalAPIClient.schema_transformer := schema_transformer self |} w
    = None ->
  scheduled_in_future c operation_dict = false ->
  d_operation operation_dict = READ \/ d_operation operation_dict = DELETE ->
  is_Some (kw_record_id (kwargs_of operation_dict)) ->
  RateLimiterManager.can_make_request (rate_limiter self)
    (buckets (redis self)) (name provider_config) 1 (time_time w)
    = (false, h') ->
  let '(success, operation_dict', self') :=
    _process_operation self w c operation_dict in
  success = false
  /\ operation_dict'
     = set_error_message (set_started_at operation_dict (now_started c))
         ("Rate limit exceeded for provider " +:+ name provider_config)
  /\ redis self' = with_buckets (redis self) h'.
Proof.
  intros Hcfg Hauth Hgate Hop [rid Hrid] Hdenied.
  unfold _process_operation. rewrite Hgate. unfold dispatch. rewrite Hcfg.
  rewrite Hauth. cbn [d_operation set_started_at].
  assert (Hkw : kw_record_id (kwargs_of (set_started_at operation_dict (now_started c)))
                = Some rid) by exact Hrid.
  unfold execute_operation.
  destruct Hop as [Hop|Hop]; rewrite Hop, Hkw; cbn [kwargs_item ret];
    unfold read_record, delete_record, _make_request;
    cbn [config ExternalAPIClient.rate_limiter]; rewrite Hdenied;
    cbn [negb]; (split; [reflexivity|]); (split; reflexivity).
Qed.

Lemma rate_limited_attempt_sends_nothing_witness :
  let self :=
    with_redis Examples.engine
      (with_buckets (redis Examples.engine)
         {[ "rate_limit:sf:sf" := {| tokens := 0; last_refill := 0 |} ]}) in
  let operation_dict :=
    operation_data_of
      {| id := "op-5"; operation := DELETE; provider := "sf";
         record_id := Some "r1"; record_data := None;
         priority := 5; created_at := 0; scheduled_at := None |} in
  let '(success, operation_dict', self') :=
    _process_operation self Examples.world_ok (Examples.clock_at 0)
      operation_dict in
  success = false
  /\ operation_dict'
     = set_error_message (set_started_at operation_dict 0)
         "Rate limit exceeded for provider sf"
  /\ redis self'
     = with_buckets (redis self)
         {[ "rate_limit:sf:sf" := {| tokens := 0; last_refill := 0 |} ]}.
Proof.
  intros self operation_dict.
  apply (rate_limited_attempt_sends_nothing self Examples.world_ok
           (Examples.clock_at 0) operation_dict Examples.sf_config
           {[ "rate_limit:sf:sf" := {| tokens := 0; last_refill := 0 |} ]}).
  - vm_compute. reflexivity.
  - vm_compute. reflexivity.
  - reflexivity.
  - right. reflexivity.
  - eexists. reflexivity.
  - vm_compute. reflexivity.
Defined.

End DispatchMore.

Section MoreWitnesses.
Import Redis.
Import SyncEngine.

Lemma add_transformer_overrides_witness :
  let self :=
    SchemaTransformer.add_transformer
      (@SchemaTransformer.__init__ AsciiRuntime.runtime) "boom"
      (fun _ => raise KeyError "'x'") in
  SchemaTransformer.transform_value self (VInt 1) "to_string"
  = SchemaTransformer.transform_value
      (@SchemaTransformer.__init__ AsciiRuntime.runtime) (VInt 1) "to_string".
Proof.
  intros self.
  apply (proj2 (add_transformer_overrides
                  (@SchemaTransformer.__init__ AsciiRuntime.runtime) "boom"
                  (fun _ => raise KeyError "'x'") (VInt 1))).
  discriminate.
Defined.

Lemma removed_provider_is_not_limited_witness :
  let self :=
    RateLimiterManager.add_provider
      (RateLimiterManager.add_provider RateLimiterManager.__init__ "sf" 60 1)
      "hs" 60 1 in
  RateLimiterManager.limiters (RateLimiterManager.remove_provider self "sf") !! "hs"
  = RateLimiterManager.limiters self !! "hs".
Proof.
  intros self.
  apply (proj2 (proj2 (removed_provider_is_not_limited self "sf"))).
  discriminate.
Defined.

Lemma status_query_finds_every_stored_id_witness :
  get_operation_status
    (submit_operation Examples.engine (Examples.create_op None) 0).2 "op-9"
  = None.
Proof.
  apply (proj1 (status_query_finds_every_stored_id
                  (submit_operation Examples.engine (Examples.create_op None) 0).2
                  "op-9")).
  vm_compute. reflexivity.
Defined.

End MoreWitnesses.
